(** * md-downloader: a shallow embedding of the synchronisation tool

    The repository holds two revisions of one Go program:
    - [src/md-downloader.go] (package [md_downloader]): downloads the raw
      file and records the blob SHA afterwards;
    - [src/unnamed/part_000] (package [main]): fetches the blob through the
      API, decodes it, and records the string ["ERROR"] when that fails.

    Both are embedded below, the first in [Module MdDownloader], the second
    in [Module Main].  The code they share word for word
    ([parseIgnorePaths], [isIgnored], [saveHistory]) is embedded once.

    The Go standard library (strings, path/filepath, os, net/http,
    encoding/json, encoding/base64) is not part of the repository.  Its pure
    string functions are written out after their documentation; the file
    system is a finite map from resolved paths to nodes; the network and the
    JSON and base64 codecs are parameters of the embedding ([Env]).

    What the embedding leaves out:
    - paths are Unix paths, without symbolic links, and a file name is
      resolved lexically (as [filepath.Clean] would) before the file system
      is consulted;
    - closing files and response bodies has no effect that matters here;
    - the network answers a given request the same way throughout a run.

    Two statements of the program can panic: [req.Header.Set] when
    [http.NewRequest], whose error the program drops, returned no request
    (it refuses URLs that do not parse), and the assignment
    [history.Files[p] = v] when [Files] is Go's nil map (which the JSON
    [null] for ["files"] produces).  [MdDownloader] and [Main] are the
    program on the runs where neither happens: every request is built and a
    [History] holds a map.  [MdDownloaderP] and [MainP], further down, are
    the program with both panics; the two pairs are shown to agree where no
    panic arises. *)

From stdpp Require Import base option list gmap strings.
From Stdlib Require Import Ascii String.

#[local] Open Scope string_scope.
#[local] Open Scope list_scope.

(** ** The Go [strings] package *)

(** [s] without the leading [prefix], when [s] starts with it. *)
Fixpoint strip_prefix (prefix s : string) : option string :=
  match prefix, s with
  | EmptyString, _ => Some s
  | String a prefix', String b s' =>
      if decide (a = b) then strip_prefix prefix' s' else None
  | String _ _, EmptyString => None
  end.

(** [strings.TrimPrefix(s, prefix)]: [s] without the leading [prefix]; [s]
    itself when it does not start with [prefix]. *)
Definition strings_TrimPrefix (s prefix : string) : string :=
  default s (strip_prefix prefix s).

(** [strings.Split(s, sep)] for a one-byte separator: all substrings
    between separators; the empty string yields one empty substring. *)
Fixpoint strings_Split (s : string) (sep : ascii) : list string :=
  match s with
  | EmptyString => [EmptyString]
  | String c s' =>
      if decide (c = sep) then EmptyString :: strings_Split s' sep
      else match strings_Split s' sep with
           | h :: t => String c h :: t
           | [] => [String c EmptyString]
           end
  end.

(** The text before and after the first [sep] of [s], when there is one. *)
Fixpoint cut (s : string) (sep : ascii) : option (string * string) :=
  match s with
  | EmptyString => None
  | String c s' =>
      if decide (c = sep) then Some (EmptyString, s')
      else match cut s' sep with
           | Some (before, after) => Some (String c before, after)
           | None => None
           end
  end.

(** [strings.SplitN(s, sep, n)] for a one-byte separator and [n >= 0]: at
    most [n] substrings, the last one being the unsplit remainder. *)
Fixpoint strings_SplitN (s : string) (sep : ascii) (n : nat) : list string :=
  match n with
  | 0 => []
  | 1 => [s]
  | S n' =>
      match cut s sep with
      | Some (before, after) => before :: strings_SplitN after sep n'
      | None => [s]
      end
  end.

(** [strings.Join(elems, sep)]. *)
Fixpoint strings_Join (elems : list string) (sep : string) : string :=
  match elems with
  | [] => EmptyString
  | [e] => e
  | e :: rest => e +:+ sep +:+ strings_Join rest sep
  end.

(** ** The Go [path/filepath] package (Unix) *)

Definition slash : ascii := "/"%char.
Definition dot : ascii := "."%char.

(** The loop of [filepath.Ext]: walk back from the end of the path until a
    separator (no extension) or a dot (the extension starts there). *)
Fixpoint ext_scan (before : list ascii) (suffix : string) : string :=
  match before with
  | [] => EmptyString
  | c :: before' =>
      if decide (c = slash) then EmptyString
      else if decide (c = dot) then String c suffix
      else ext_scan before' (String c suffix)
  end.

(** [filepath.Ext(path)]: the suffix beginning at the final dot in the final
    element of [path]; empty if there is no dot. *)
Definition filepath_Ext (path : string) : string :=
  ext_scan (rev (list_ascii_of_string path)) EmptyString.

(** The leading separators of a byte sequence removed. *)
Fixpoint drop_slashes (cs : list ascii) : list ascii :=
  match cs with
  | c :: cs' => if decide (c = slash) then drop_slashes cs' else cs
  | [] => []
  end.

(** [path] without its trailing separators. *)
Definition strip_trailing_slashes (path : string) : string :=
  string_of_list_ascii (rev (drop_slashes (rev (list_ascii_of_string path)))).

(** [filepath.Base(path)]: the last element of [path]; trailing separators
    are removed first; ["."] for the empty path, ["/"] for a path of
    separators only. *)
Definition filepath_Base (path : string) : string :=
  if decide (path = EmptyString) then "."
  else
    let element := List.last (strings_Split (strip_trailing_slashes path) slash) EmptyString in
    if decide (element = EmptyString) then "/" else element.

Definition is_rooted (path : string) : bool :=
  match path with
  | String c _ => bool_decide (c = slash)
  | EmptyString => false
  end.

(** The lexical rules of [filepath.Clean] on the elements of a path: empty
    and ["."] elements go away; [".."] removes the element before it, is
    dropped at the root, and is kept at the start of a relative path.
    [kept] holds the elements kept so far, the last one first. *)
Fixpoint clean_elems (rooted : bool) (kept elems : list string) : list string :=
  match elems with
  | [] => rev kept
  | e :: elems' =>
      if decide (e = EmptyString ∨ e = ".") then clean_elems rooted kept elems'
      else if decide (e = "..") then
        match kept with
        | top :: below =>
            if decide (top = "..") then clean_elems rooted (e :: kept) elems'
            else clean_elems rooted below elems'
        | [] =>
            if rooted then clean_elems rooted [] elems'
            else clean_elems rooted [e] elems'
        end
      else clean_elems rooted (e :: kept) elems'
  end.

(** The elements a path resolves to. *)
Definition path_elems (path : string) : list string :=
  clean_elems (is_rooted path) [] (strings_Split path slash).

(** [filepath.Clean(path)]: the shortest path name equivalent to [path] by
    purely lexical processing; ["."] for an empty result. *)
Definition filepath_Clean (path : string) : string :=
  let elems := path_elems path in
  if is_rooted path then "/" +:+ strings_Join elems "/"
  else match elems with
       | [] => "."
       | _ => strings_Join elems "/"
       end.

(** [filepath.Join(elem...)]: leading empty elements are ignored, the rest
    is joined with separators and cleaned; the empty string when every
    element is empty. *)
Fixpoint filepath_Join (elem : list string) : string :=
  match elem with
  | [] => EmptyString
  | e :: rest =>
      if decide (e = EmptyString) then filepath_Join rest
      else filepath_Clean (strings_Join elem "/")
  end.

(** ** Streams, the network and the file system *)

(** A byte stream that is read once, front to back, such as an HTTP response
    body or an open file: it delivers [body_data] and then either reports the
    end of the input or, when [body_broken], a read error. *)
Record Body := { body_data : string; body_broken : bool }.

(** [io.ReadAll]/[ioutil.ReadAll]: everything up to the end of the input, or
    the read error. *)
Definition io_ReadAll (b : Body) : option string :=
  if body_broken b then None else Some (body_data b).

(** The stream once a reader has consumed it to its end. *)
Definition drained (b : Body) : Body :=
  {| body_data := EmptyString; body_broken := body_broken b |}.

(** [json.NewDecoder(r).Decode(&v)]: the next JSON value of the stream is
    stored into the target [v] and an error may be reported ([true]); what
    is stored for which bytes is the library's business ([unmarshal]).  On a
    stream with nothing left to deliver Decode reports [io.EOF] (or the read
    error) and leaves the target as it was. *)
Definition json_Decode {A : Type} (unmarshal : Body → A → A * bool)
    (r : Body) (v : A) : A * bool :=
  if decide (body_data r = EmptyString) then (v, true) else unmarshal r v.

(** An HTTP GET request: its URL and its Authorization header, if any. *)
Record Request := { req_url : string; req_authorization : option string }.

(** A resolved path: whether it is rooted, and its cleaned elements. *)
Definition Loc : Type := bool * list string.

Definition resolve (path : string) : Loc := (is_rooted path, path_elems path).

(** The directory holding [loc]. *)
Definition parent (loc : Loc) : Loc := (loc.1, removelast loc.2).

Inductive Node :=
  | Dir
  | File (content : string).

(** File-system operations that may be refused for reasons outside the model
    (permissions, quota, a failing device). *)
Inductive Op := OpMkdir | OpCreate | OpOpen | OpWrite.

(** One record of the single history (change record) file.  [Files] is a
    map; the value whose [Files] is Go's nil map is in [GoHistory], further
    down. *)
Record History := { Files : gmap string string }.

(** One entry of the tree listing (the anonymous struct of [listMdFiles]). *)
Record TreeItem := {
  Path : string;
  Mode : string;
  Type_ : string;
  Sha : string;
  Size : Z;
  Url : string;
}.

(** What the program prints or logs, one constructor per format string.
    The [Debugf] line of [part_000] is left out: the logger is created with
    [logrus.New()], whose level is Info. *)
Inductive Message :=
  | InvalidIgnorePath (entry : string)
  | RequestFailed
  | ReadBodyFailed
  | DecodeJSONFailed
  | DecodeBase64Failed
  | IgnoringFile (path : string)
  | DownloadingFile (path : string)
  | SkippingFile (path : string)
  | CreateDirectoryFailed (dir : string)
  | DownloadFileFailed (path : string)
  | CreateFileFailed (path : string)
  | SaveFileFailed (path : string)
  | FileDownloaded (path : string)
  | OpenHistoryFailed
  | ParseHistoryFailed (file : string)
  | CreateHistoryFailed (file : string)
  | SaveHistoryFailed (file : string).

Inductive Event :=
  | Sent (r : Request)
  | Printed (m : Message).

#[global] Instance Request_eq_dec : EqDecision Request.
Proof. solve_decision. Defined.

#[global] Instance Message_eq_dec : EqDecision Message.
Proof. solve_decision. Defined.

#[global] Instance Event_eq_dec : EqDecision Event.
Proof. solve_decision. Defined.

(** The outside of the program during one run: the network, the codecs of
    the Go library, and the refusals of the operating system. *)
Record Env := {
  (** [client.Do(req)] and [http.Get(url)]: the response body, or [None]
      for a transport error.  The HTTP status is never inspected by the
      program. *)
  http_Do : Request → option Body;
  (** encoding/json into the [contents] struct of [listMdFiles] (its [Tree]
      field), into [fileContentResponse] (its [Content] field) and into
      [History]: the target after decoding, and whether an error is
      reported. *)
  unmarshal_contents : Body → list TreeItem → list TreeItem * bool;
  unmarshal_fileContent : Body → string → string * bool;
  unmarshal_History : Body → History → History * bool;
  (** encoding/json, indented, of a [History]. *)
  marshal_History : History → string;
  (** [base64.StdEncoding.DecodeString]. *)
  base64_DecodeString : string → option string;
  (** The operations the operating system refuses, whatever the state of
      the file system. *)
  os_fault : Op → Loc → bool;
}.

(** The state a run acts on: the file system and what was sent and printed,
    oldest first. *)
Record World := { nodes : gmap Loc Node; trace : list Event }.

(** ** Stateful code: a state monad over [World] *)

Definition M (A : Type) : Type := World → A * World.

Definition ret {A : Type} (a : A) : M A := λ w, (a, w).

Definition bind {A B : Type} (m : M A) (k : A → M B) : M B :=
  λ w, let '(a, w') := m w in k a w'.

Notation "x <- c ;; k" := (bind c (λ x, k))
  (at level 20, c at level 99, k at level 200, only parsing).

(** A Go [for _, x := range xs] loop whose body updates [s]; [continue] is
    the body returning early. *)
Fixpoint for_range {A S : Type} (xs : list A) (body : A → S → M S) (s : S) : M S :=
  match xs with
  | [] => ret s
  | x :: xs' => s' <- body x s ;; for_range xs' body s'
  end.

Definition emit (e : Event) : M unit :=
  λ w, (tt, {| nodes := nodes w; trace := trace w ++ [e] |}).

Definition print (m : Message) : M unit := emit (Printed m).

(** ** The Go [os] and [io] packages over [World] *)

Section OS.
Context (E : Env).

(** The directory the process starts in (or the root, for a rooted path)
    and the directories above it always exist. *)
Definition is_start (loc : Loc) : bool :=
  forallb (λ e, bool_decide (e = "..")) loc.2.

(** [os.Stat]. *)
Definition os_Stat (w : World) (loc : Loc) : option Node :=
  if is_start loc then Some Dir else nodes w !! loc.

Definition set_node (loc : Loc) (n : Node) (w : World) : World :=
  {| nodes := <[loc := n]> (nodes w); trace := trace w |}.

(** [os.Mkdir]: the directory must be new and its parent a directory. *)
Definition os_Mkdir (loc : Loc) : M bool := λ w,
  if os_fault E OpMkdir loc then (false, w)
  else match os_Stat w loc, os_Stat w (parent loc) with
       | None, Some Dir => (true, set_node loc Dir w)
       | _, _ => (false, w)
       end.

(** The recursion of [os.MkdirAll] on a path given by its elements, the last
    one first: an existing directory is a success, an existing file an
    error; otherwise the parent is made first, then the directory itself. *)
Fixpoint mkdir_all (rooted : bool) (rev_elems : list string) : M bool := λ w,
  match os_Stat w (rooted, rev rev_elems) with
  | Some Dir => (true, w)
  | Some (File _) => (false, w)
  | None =>
      match rev_elems with
      | [] => (false, w)
      | _ :: above =>
          let '(ok, w') := mkdir_all rooted above w in
          if ok then os_Mkdir (rooted, rev rev_elems) w' else (false, w')
      end
  end.

(** [os.MkdirAll(path, perm)]; [true] when it returns no error. *)
Definition os_MkdirAll (path : string) : M bool := λ w,
  if decide (path = EmptyString) then (false, w)
  else mkdir_all (resolve path).1 (rev (resolve path).2) w.

(** [os.Create(name)]: creates or truncates the named file.  It fails when
    the name is a directory or when the directory that is to hold the file
    does not exist; it creates no directory. *)
Definition os_Create (name : string) : M (option Loc) := λ w,
  let loc := resolve name in
  if decide (name = EmptyString) then (None, w)
  else if os_fault E OpCreate loc then (None, w)
  else match os_Stat w loc, os_Stat w (parent loc) with
       | Some Dir, _ => (None, w)
       | _, Some Dir => (Some loc, set_node loc (File EmptyString) w)
       | _, _ => (None, w)
       end.

(** Writing [s] to a file that was just created (so that [s] becomes its
    content): [File.WriteString], and the writes of [io.Copy] and of
    [Encoder.Encode]. *)
Definition file_Write (f : Loc) (s : string) : M bool := λ w,
  if os_fault E OpWrite f then (false, w)
  else (true, set_node f (File s) w).

(** [io.Copy(dst, src)]: what the source delivers is written; an error of
    the source or of the write is an error of the copy. *)
Definition io_Copy (dst : Loc) (src : Body) : M bool :=
  ok <- file_Write dst (body_data src) ;;
  ret (ok && negb (body_broken src)).

(** [os.Open(name)]: the content as a stream.  A directory can be opened,
    but reading from it fails. *)
Definition os_Open (name : string) : M (option Body) := λ w,
  let loc := resolve name in
  if decide (name = EmptyString) then (None, w)
  else if os_fault E OpOpen loc then (None, w)
  else match os_Stat w loc with
       | Some (File content) => (Some {| body_data := content; body_broken := false |}, w)
       | Some Dir => (Some {| body_data := EmptyString; body_broken := true |}, w)
       | None => (None, w)
       end.

(** [client.Do(req)] and [http.Get(url)]. *)
Definition http_send (r : Request) : M (option Body) :=
  _ <- emit (Sent r) ;; ret (http_Do E r).

End OS.

(** ** The code both revisions share *)

(** [Config]; its field [History] is [HistoryFile] here, the name [History]
    being taken by the record type. *)
Record Config := {
  AccessToken : string;
  Repos : list string;
  Output : string;
  HistoryFile : string;
  Ignore : gmap string (list string);
}.

Definition set_Ignore (cfg : Config) (m : gmap string (list string)) : Config :=
  {| AccessToken := AccessToken cfg; Repos := Repos cfg; Output := Output cfg;
     HistoryFile := HistoryFile cfg; Ignore := m |}.

(** [history.Files[path] = value]. *)
Definition set_File (history : History) (path value : string) : History :=
  {| Files := <[path := value]> (Files history) |}.

Definition colon : ascii := ":"%char.
Definition comma : ascii := ","%char.

(** The body of the loop of [parseIgnorePaths]. *)
Definition parseIgnorePath (i : string) (cfg : Config) : M Config :=
  match strings_SplitN i colon 2 with
  | repo :: rest :: _ =>
      let paths := strings_Split rest comma in
      ret (set_Ignore cfg (<[repo := paths]> (Ignore cfg)))
  | _ =>
      _ <- print (InvalidIgnorePath i) ;;
      ret cfg
  end.

(** [parseIgnorePaths()]; the globals [ignore] and [cfg] are an argument and
    a threaded value. *)
Definition parseIgnorePaths (ignore : list string) (cfg : Config) : M Config :=
  for_range ignore parseIgnorePath (set_Ignore cfg ∅).

(** [isIgnored(repo, filePath)]. *)
Definition isIgnored (cfg : Config) (repo filePath : string) : bool :=
  match Ignore cfg !! repo with
  | Some ignorePaths => existsb (λ path, bool_decide (path = filePath)) ignorePaths
  | None => false
  end.

Section Shared.
Context (E : Env) (cfg : Config).

(** [saveHistory(history)]. *)
Definition saveHistory (history : History) : M unit :=
  file <- os_Create E (HistoryFile cfg) ;;
  match file with
  | None => print (CreateHistoryFailed (HistoryFile cfg))
  | Some f =>
      ok <- file_Write E f (marshal_History E history) ;;
      if ok : bool then ret tt else print (SaveHistoryFailed (HistoryFile cfg))
  end.

(** The condition that makes a tree entry a candidate. *)
Definition is_md_blob (item : TreeItem) : bool :=
  bool_decide (Type_ item = "blob") && bool_decide (filepath_Ext (Path item) = ".md").

(** The request for the recursive tree of the [master] branch. *)
Definition tree_request (repo : string) : Request :=
  {| req_url := "https://api.github.com" +:+ "/repos/" +:+ repo +:+ "/git/trees/master?recursive=1";
     req_authorization := Some ("Bearer " +:+ AccessToken cfg) |}.

End Shared.

(** Go's [v, ok := m[k]]: the zero value and [false] for a missing key. *)
Definition comma_ok (m : gmap string string) (k : string) : string * bool :=
  match m !! k with
  | Some v => (v, true)
  | None => (EmptyString, false)
  end.

(** Go's [m[k]]. *)
Definition index (m : gmap string string) (k : string) : string := (comma_ok m k).1.

(** ** [src/md-downloader.go] *)

Module MdDownloader.
Section Program.
Context (E : Env) (cfg : Config).

(** [shouldDownload(filePath, sha, history)]. *)
Definition shouldDownload (filePath sha : string) (history : History) : bool :=
  let '(_, ok) := comma_ok (Files history) filePath in
  if negb ok then true
  else bool_decide (index (Files history) filePath ≠ sha).

(** [downloadFile(repo, filePath, downloadURL)]. *)
Definition downloadFile (repo filePath downloadURL : string) : M unit :=
  let fileDir := filepath_Join [Output cfg; filepath_Base repo] in
  ok <- os_MkdirAll E fileDir ;;
  if negb ok then print (CreateDirectoryFailed fileDir)
  else
    let filePath := filepath_Join [fileDir; filePath] in
    resp <- http_send E {| req_url := downloadURL; req_authorization := None |} ;;
    match resp with
    | None => print (DownloadFileFailed filePath)
    | Some body =>
        out <- os_Create E filePath ;;
        match out with
        | None => print (CreateFileFailed filePath)
        | Some f =>
            ok <- io_Copy E f body ;;
            if ok : bool then print (FileDownloaded filePath)
            else print (SaveFileFailed filePath)
        end
    end.

(** [loadHistory()]. *)
Definition loadHistory : M History :=
  let history := {| Files := ∅ |} in
  file <- os_Open E (HistoryFile cfg) ;;
  match file with
  | None => ret history
  | Some f =>
      let '(history, err) := json_Decode (unmarshal_History E) f history in
      _ <- (if err : bool then print (ParseHistoryFailed (HistoryFile cfg)) else ret tt) ;;
      ret history
  end.

(** The body of the loop over [contents.Tree] in [listMdFiles]
    (lines 100-115). *)
Definition processItem (repo : string) (item : TreeItem) (history : History) : M History :=
  if is_md_blob item then
    if shouldDownload (Path item) (Sha item) history then
      if isIgnored cfg repo (Path item) then
        _ <- print (IgnoringFile (Path item)) ;;
        ret history
      else
        _ <- print (DownloadingFile (Path item)) ;;
        let downloadURL :=
          "https://raw.githubusercontent.com/" +:+ repo +:+ "/master/" +:+ Path item in
        _ <- downloadFile repo (Path item) downloadURL ;;
        ret (set_File history (Path item) (Sha item))
    else
      _ <- print (SkippingFile (Path item)) ;;
      ret history
  else ret history.

(** [listMdFiles(repo)], where [http.NewRequest] builds its request. *)
Definition listMdFiles (repo : string) : M unit :=
  let repo := strings_TrimPrefix repo "https://github.com/" in
  resp <- http_send E (tree_request cfg repo) ;;
  match resp with
  | None => print RequestFailed
  | Some body =>
      let '(contents, err) := json_Decode (unmarshal_contents E) body [] in
      if err : bool then print DecodeJSONFailed
      else
        history <- loadHistory ;;
        history <- for_range contents (processItem repo) history ;;
        saveHistory E cfg history
  end.

End Program.

(** The [Run] function of the command: the ignore entries are parsed, then
    every repository is listed. *)
Definition Run (E : Env) (ignore : list string) (cfg : Config) : M unit :=
  cfg <- parseIgnorePaths ignore cfg ;;
  for_range (Repos cfg) (λ repo _, listMdFiles E cfg repo) tt.

End MdDownloader.

(** ** [src/unnamed/part_000] *)

Module Main.
Section Program.
Context (E : Env) (cfg : Config).

(** [shouldDownload(filePath, sha, history)]. *)
Definition shouldDownload (filePath sha : string) (history : History) : bool :=
  let '(lastSha, ok) := comma_ok (Files history) filePath in
  if negb ok || bool_decide (lastSha = "ERROR") then true
  else bool_decide (index (Files history) filePath ≠ sha).

(** [saveFile(repo, filePath, content)]. *)
Definition saveFile (repo filePath content : string) : M unit :=
  let fileDir := filepath_Join [Output cfg; filepath_Base repo] in
  ok <- os_MkdirAll E fileDir ;;
  if negb ok then print (CreateDirectoryFailed fileDir)
  else
    let filePath := filepath_Join [fileDir; filePath] in
    out <- os_Create E filePath ;;
    match out with
    | None => print (CreateFileFailed filePath)
    | Some f =>
        ok <- file_Write E f content ;;
        if ok : bool then print (FileDownloaded filePath)
        else print (SaveFileFailed filePath)
    end.

(** [loadHistory()]. *)
Definition loadHistory : M History :=
  let history := {| Files := ∅ |} in
  file <- os_Open E (HistoryFile cfg) ;;
  match file with
  | None =>
      _ <- print OpenHistoryFailed ;;
      ret history
  | Some f =>
      let '(history, err) := json_Decode (unmarshal_History E) f history in
      _ <- (if err : bool then print (ParseHistoryFailed (HistoryFile cfg)) else ret tt) ;;
      ret history
  end.

(** The body of the loop over [contents.Tree] in [listMdFiles]
    (lines 116-156); each [continue] ends the body. *)
Definition processItem (repo : string) (item : TreeItem) (history : History) : M History :=
  if is_md_blob item then
    if shouldDownload (Path item) (Sha item) history then
      if isIgnored cfg repo (Path item) then
        _ <- print (IgnoringFile (Path item)) ;;
        ret history
      else
        _ <- print (DownloadingFile (Path item)) ;;
        resp <- http_send E {| req_url := Url item;
                               req_authorization := Some ("Bearer " +:+ AccessToken cfg) |} ;;
        match resp with
        | None =>
            _ <- print RequestFailed ;;
            ret (set_File history (Path item) "ERROR")
        | Some body =>
            let '(content, err) := json_Decode (unmarshal_fileContent E) body EmptyString in
            if err : bool then
              _ <- print DecodeJSONFailed ;;
              ret (set_File history (Path item) "ERROR")
            else
              match base64_DecodeString E content with
              | None =>
                  _ <- print DecodeBase64Failed ;;
                  ret (set_File history (Path item) "ERROR")
              | Some decodedContent =>
                  _ <- saveFile repo (Path item) decodedContent ;;
                  ret (set_File history (Path item) (Sha item))
              end
        end
    else
      _ <- print (SkippingFile (Path item)) ;;
      ret history
  else ret history.

(** [listMdFiles(repo)], where [http.NewRequest] builds its request.  The
    response body is read to its end by [ioutil.ReadAll] (line 90) before
    the decoder is created on the same body (line 109), so the decoder
    reads a drained stream. *)
Definition listMdFiles (repo : string) : M unit :=
  let repo := strings_TrimPrefix repo "https://github.com/" in
  resp <- http_send E (tree_request cfg repo) ;;
  match resp with
  | None => print RequestFailed
  | Some body =>
      match io_ReadAll body with
      | None => print ReadBodyFailed
      | Some bodyBytes =>
          let '(contents, err) := json_Decode (unmarshal_contents E) (drained body) [] in
          if err : bool then print DecodeJSONFailed
          else
            history <- loadHistory ;;
            history <- for_range contents (processItem repo) history ;;
            saveHistory E cfg history
      end
  end.

End Program.

(** The [Run] function of the command. *)
Definition Run (E : Env) (ignore : list string) (cfg : Config) : M unit :=
  cfg <- parseIgnorePaths ignore cfg ;;
  for_range (Repos cfg) (λ repo _, listMdFiles E cfg repo) tt.

End Main.

(** ** Reading a run *)

(** The three outcomes of the loop body for a candidate file, as the
    specification names them; the loop announces each one. *)
Inductive Verdict := FETCH | SKIP_CURRENT | SKIP_EXCLUDED.

Definition verdict_of (e : Event) : option (string * Verdict) :=
  match e with
  | Printed (DownloadingFile p) => Some (p, FETCH)
  | Printed (SkippingFile p) => Some (p, SKIP_CURRENT)
  | Printed (IgnoringFile p) => Some (p, SKIP_EXCLUDED)
  | _ => None
  end.

(** The verdicts announced in a trace, oldest first. *)
Definition verdicts (t : list Event) : list (string * Verdict) := omap verdict_of t.

(** The requests sent in a trace, oldest first. *)
Definition requests (t : list Event) : list Request :=
  omap (λ e, match e with Sent r => Some r | Printed _ => None end) t.

(** [w] after the events [evs], the file system unchanged. *)
Definition logged (w : World) (evs : list Event) : World :=
  {| nodes := nodes w; trace := trace w ++ evs |}.

(** The events of a run that took [w] to [w']. *)
Definition events_since (w w' : World) : list Event := drop (List.length (trace w)) (trace w').

(** The repository name [listMdFiles] works with. *)
Definition repo_name (repo : string) : string :=
  strings_TrimPrefix repo "https://github.com/".

(** The tree [src/md-downloader.go] obtains for a repository: [None] when
    the request fails or the response does not decode. *)
Definition tree_listing (E : Env) (cfg : Config) (repo : string) : option (list TreeItem) :=
  match http_Do E (tree_request cfg (repo_name repo)) with
  | None => None
  | Some body =>
      let '(contents, err) := json_Decode (unmarshal_contents E) body [] in
      if err : bool then None else Some contents
  end.

(** The request [part_000] sends for the content of a tree entry. *)
Definition blob_request (cfg : Config) (item : TreeItem) : Request :=
  {| req_url := Url item; req_authorization := Some ("Bearer " +:+ AccessToken cfg) |}.

(** The stream of a regular file. *)
Definition file_body (content : string) : Body :=
  {| body_data := content; body_broken := false |}.

Definition empty_History : History := {| Files := ∅ |}.

(** A computation that only adds events satisfying [P] to the trace. *)
Definition emits {A : Type} (P : Event → Prop) (m : M A) : Prop :=
  ∀ w, ∃ evs, trace (m w).2 = trace w ++ evs ∧ Forall P evs.

(** An event that is neither a request nor the announcement of a verdict. *)
Definition is_report (e : Event) : Prop :=
  match e with
  | Sent _ => False
  | Printed m => verdict_of (Printed m) = None
  end.

(** An event that announces no verdict. *)
Definition no_verdict (e : Event) : Prop := verdict_of e = None.

(** An event that does not announce the fetch of a path excluded for
    [repo]. *)
Definition respects_ignore (cfg : Config) (repo : string) (e : Event) : Prop :=
  ∀ q v, verdict_of e = Some (q, v) → isIgnored cfg repo q = true → v ≠ FETCH.

(** A tree that lists no path with two different identifiers. *)
Definition one_sha_per_path (items : list TreeItem) : Prop :=
  ∀ i j, i ∈ items → j ∈ items → Path i = Path j → Sha i = Sha j.

(** The record holds the current identifier of every candidate of [items]
    that is not excluded. *)
Definition settled (cfg : Config) (repo : string) (h : History) (items : list TreeItem) : Prop :=
  ∀ i, i ∈ items → is_md_blob i = true → isIgnored cfg repo (Path i) = false →
       Files h !! Path i = Some (Sha i).


(** ** Concrete scenarios *)

(** No network, codecs that reject everything, an operating system that
    refuses nothing. *)
Definition offline : Env :=
  {| http_Do := λ _, None;
     unmarshal_contents := λ _ v, (v, true);
     unmarshal_fileContent := λ _ v, (v, true);
     unmarshal_History := λ _ v, (v, true);
     marshal_History := λ _, "{}";
     base64_DecodeString := λ _, None;
     os_fault := λ _ _, false |}.

(** An empty file system and an empty trace. *)
Definition fresh : World := {| nodes := ∅; trace := [] |}.

(** The default flags, one repository, and [README.md] excluded for it. *)
Definition cfg_readme_excluded : Config :=
  {| AccessToken := "token"; Repos := ["owner/project"]; Output := "docs";
     HistoryFile := "history.json";
     Ignore := {["owner/project" := ["README.md"]]} |}.

Definition readme_item : TreeItem :=
  {| Path := "README.md"; Mode := "100644"; Type_ := "blob"; Sha := "3f2a"; Size := 12;
     Url := "https://api.github.com/repos/owner/project/git/blobs/3f2a" |}.

(** A stand-in for the JSON codec of [History] that can be computed with: a
    tag followed by the bits of the map's code.  It only serves to run the
    embedding on concrete inputs. *)
Fixpoint bits_of_pos (p : positive) : string :=
  match p with
  | xH => EmptyString
  | xO q => String "0" (bits_of_pos q)
  | xI q => String "1" (bits_of_pos q)
  end.

Fixpoint pos_of_bits (s : string) : positive :=
  match s with
  | EmptyString => xH
  | String c s' =>
      if decide (c = "1"%char) then xI (pos_of_bits s') else xO (pos_of_bits s')
  end.

Definition toy_marshal (h : History) : string :=
  String "h" (bits_of_pos (encode (Files h))).

Definition toy_unmarshal (b : Body) (v : History) : History * bool :=
  match body_data b with
  | String "h" bits =>
      match decode (pos_of_bits bits) with
      | Some m => ({| Files := m ∪ Files v |}, false)
      | None => (v, true)
      end
  | _ => (v, true)
  end.

Definition cfg_demo : Config :=
  {| AccessToken := "token"; Repos := ["owner/project"]; Output := "docs";
     HistoryFile := "history.json"; Ignore := ∅ |}.

Definition guide_item : TreeItem :=
  {| Path := "guide.md"; Mode := "100644"; Type_ := "blob"; Sha := "9c1d"; Size := 40;
     Url := "https://api.github.com/repos/owner/project/git/blobs/9c1d" |}.

Definition notes_item : TreeItem :=
  {| Path := "notes.txt"; Mode := "100644"; Type_ := "blob"; Sha := "77aa"; Size := 7;
     Url := "https://api.github.com/repos/owner/project/git/blobs/77aa" |}.

Definition demo_tree : list TreeItem := [readme_item; guide_item; notes_item].

(** A network that serves the tree of [owner/project] and the raw files
    [README.md] and [docs/intro.md], and nothing else (so the download of
    [guide.md] fails). *)
Definition online : Env :=
  {| http_Do := λ r,
       if decide (req_url r = "https://api.github.com/repos/owner/project/git/trees/master?recursive=1")
       then Some (file_body "TREE")
       else if decide (req_url r = "https://raw.githubusercontent.com/owner/project/master/README.md")
       then Some (file_body "# Project")
       else if decide (req_url r = "https://raw.githubusercontent.com/owner/project/master/docs/intro.md")
       then Some (file_body "# Intro")
       else None;
     unmarshal_contents := λ b v,
       if decide (body_data b = "TREE") then (demo_tree, false) else (v, true);
     unmarshal_fileContent := λ b _, (body_data b, false);
     unmarshal_History := toy_unmarshal;
     marshal_History := toy_marshal;
     base64_DecodeString := λ s, Some s;
     os_fault := λ _ _, false |}.

(** A working directory that holds a history file recording [old.md], a
    path the tree of [owner/project] no longer lists. *)
Definition seeded : World :=
  {| nodes := {[resolve "history.json" := File (toy_marshal {| Files := {["old.md" := "1111"]} |})]};
     trace := [] |}.

(** The double quote, and a quoted word. *)
Definition dq : string := String (ascii_of_nat 34) EmptyString.
Definition quoted (s : string) : string := dq +:+ s +:+ dq.

(** A history file whose JSON is well formed but gives a number where the
    identifier of [b.md] should be:
    [{ "files" : { "a.md" : "3f2a", "b.md" : 1 } }] without the blanks. *)
Definition mistyped_history : string :=
  "{" +:+ quoted "files" +:+ ":{" +:+ quoted "a.md" +:+ ":" +:+ quoted "3f2a" +:+ ","
      +:+ quoted "b.md" +:+ ":1}}".

(** encoding/json on that file, as its documentation has it: a value that
    does not fit the target type is skipped, decoding goes on as best it
    can, and an [UnmarshalTypeError] is returned; the map then holds
    [a.md] with its identifier and [b.md] with the zero value.  Every other
    input is rejected here without storing anything. *)
Definition typed_decoder : Env :=
  {| http_Do := λ _, None;
     unmarshal_contents := λ _ v, (v, true);
     unmarshal_fileContent := λ _ v, (v, true);
     unmarshal_History := λ b v,
       if decide (body_data b = mistyped_history)
       then ({| Files := <["b.md" := EmptyString]> (<["a.md" := "3f2a"]> (Files v)) |}, true)
       else (v, true);
     marshal_History := λ _, "{}";
     base64_DecodeString := λ _, None;
     os_fault := λ _ _, false |}.

Definition mistyped : World :=
  {| nodes := {[resolve "history.json" := File mistyped_history]}; trace := [] |}.

(** The API of [part_000]'s loop: the blob of [README.md] is served, its
    content decodes. *)
Definition api : Env :=
  {| http_Do := λ r,
       if decide (req_url r = Url readme_item) then Some (file_body "IyBQcm9qZWN0") else None;
     unmarshal_contents := λ _ v, (v, true);
     unmarshal_fileContent := λ b _, (body_data b, false);
     unmarshal_History := toy_unmarshal;
     marshal_History := toy_marshal;
     base64_DecodeString := λ s,
       if decide (s = "IyBQcm9qZWN0") then Some "# Project" else None;
     os_fault := λ _ _, false |}.

(** A working directory in which [docs] is a regular file, so that no
    directory [docs/project] can be made. *)
Definition blocked : World :=
  {| nodes := {[resolve "docs" := File "not a directory"]}; trace := [] |}.

(** ** More vocabulary for statements *)

(** The request [src/md-downloader.go] sends for the raw content of a tree
    entry ([http.Get], no header). *)
Definition raw_request (repo : string) (item : TreeItem) : Request :=
  {| req_url := "https://raw.githubusercontent.com/" +:+ repo +:+ "/master/" +:+ Path item;
     req_authorization := None |}.

(** The name [saveFile] and [downloadFile] give to the local copy of
    [filePath]. *)
Definition target_path (cfg : Config) (repo filePath : string) : string :=
  filepath_Join [filepath_Join [Output cfg; filepath_Base repo]; filePath].

(** A tree entry the loop selects for its repository unless the record says
    it is up to date: a candidate that is not excluded. *)
Definition selectable (cfg : Config) (repo : string) (item : TreeItem) : Prop :=
  is_md_blob item = true ∧ isIgnored cfg repo (Path item) = false.

(** The file system of [w'] is that of [w] with, possibly, directories added
    where [w] had nothing. *)
Definition adds_dirs (w w' : World) : Prop :=
  ∀ loc, nodes w' !! loc = nodes w !! loc
         ∨ (nodes w !! loc = None ∧ nodes w' !! loc = Some Dir).

(** An output directory left by an earlier run, holding old copies of
    [README.md] and [guide.md]. *)
Definition stale_copy : World :=
  {| nodes := {[resolve "docs" := Dir; resolve "docs/project" := Dir;
                resolve "docs/project/README.md" := File "old copy";
                resolve "docs/project/guide.md" := File "old copy"]};
     trace := [] |}.

(** The paths a trace announces as being downloaded, oldest first. *)
Definition fetched (t : list Event) : list string :=
  omap (λ e, match e with Printed (DownloadingFile p) => Some p | _ => None end) t.

(** An event that does not announce the download of [p]. *)
Definition no_fetch_of (p : string) (e : Event) : Prop :=
  verdict_of e ≠ Some (p, FETCH).


(** A network on which every repository answers with a tree that lists
    nothing. *)
Definition bare : Env :=
  {| http_Do := λ _, Some (file_body "TREE");
     unmarshal_contents := λ _ _, ([], false);
     unmarshal_fileContent := λ _ v, (v, true);
     unmarshal_History := toy_unmarshal;
     marshal_History := toy_marshal;
     base64_DecodeString := λ _, None;
     os_fault := λ _ _, false |}.

(** ** Panics

    A panic ends the process at once: what was written, sent and printed
    before stays, nothing follows, and the program recovers from none.  It
    has two causes here:
    - [req, _ := http.NewRequest(...)] followed by [req.Header.Set(...)]:
      for a URL that does not parse [req] is nil and [Set] dereferences it;
    - [history.Files[p] = v] when [history.Files] is the nil map, which is
      what decoding leaves there for a history file that gives [null] for
      ["files"].  Reading the nil map is harmless: it has no entry. *)

(** What the Go library does at these places. *)
Record GoRuntime := {
  (** whether [net/url] parses the URL, so that [http.NewRequest] returns a
      request *)
  url_parses : string → bool;
  (** whether decoding the stream into a [History] leaves [Files] nil *)
  files_null : Body → bool;
  (** encoding/json, indented, of a [History] whose [Files] is nil *)
  marshal_nil : string;
}.

(** A [History] value as Go has it: its [Files] is nil or a map. *)
Inductive GoHistory :=
  | NilFiles
  | MapFiles (h : History).

(** What reading [history.Files] sees. *)
Definition as_read (history : GoHistory) : History :=
  match history with
  | NilFiles => {| Files := ∅ |}
  | MapFiles h => h
  end.

(** How a computation ends. *)
Inductive Outcome (A : Type) :=
  | Returned (a : A)
  | Panicked.
Arguments Returned {A} a.
Arguments Panicked {A}.

(** Stateful code that may panic. *)
Definition MP (A : Type) : Type := M (Outcome A).

Definition panic {A : Type} : MP A := ret Panicked.

Definition bindP {A B : Type} (m : MP A) (k : A → MP B) : MP B :=
  r <- m ;;
  match r with
  | Returned a => k a
  | Panicked => ret Panicked
  end.

(** Code that cannot panic. *)
Definition lift {A : Type} (m : M A) : MP A := a <- m ;; ret (Returned a).

Notation "x <~ c ;; k" := (bindP c (λ x, k))
  (at level 20, c at level 99, k at level 200, only parsing).

(** The [for ... range] loop; a panic of the body ends it. *)
Fixpoint for_rangeP {A S : Type} (xs : list A) (body : A → S → MP S) (s : S) : MP S :=
  match xs with
  | [] => ret (Returned s)
  | x :: xs' => s' <~ body x s ;; for_rangeP xs' body s'
  end.

(** [history.Files[path] = value]. *)
Definition assign (history : GoHistory) (path value : string) : MP GoHistory :=
  match history with
  | NilFiles => panic
  | MapFiles h => ret (Returned (MapFiles (set_File h path value)))
  end.

(** [req, _ := http.NewRequest("GET", url, nil)], then
    [req.Header.Set("Authorization", ...)], then [client.Do(req)]. *)
Definition http_request (E : Env) (G : GoRuntime) (r : Request) : MP (option Body) :=
  if url_parses G (req_url r) then lift (http_send E r) else panic.

Module Go.
Section Shared.
Context (E : Env) (G : GoRuntime) (cfg : Config).

(** encoding/json into a [History]. *)
Definition unmarshal_History (b : Body) (v : GoHistory) : GoHistory * bool :=
  let '(h, err) := unmarshal_History E b (as_read v) in
  (if files_null G b then NilFiles else MapFiles h, err).

(** encoding/json, indented, of a [History]. *)
Definition marshal_History (history : GoHistory) : string :=
  match history with
  | NilFiles => marshal_nil G
  | MapFiles h => marshal_History E h
  end.

(** [saveHistory(history)]. *)
Definition saveHistory (history : GoHistory) : M unit :=
  file <- os_Create E (HistoryFile cfg) ;;
  match file with
  | None => print (CreateHistoryFailed (HistoryFile cfg))
  | Some f =>
      ok <- file_Write E f (marshal_History history) ;;
      if ok : bool then ret tt else print (SaveHistoryFailed (HistoryFile cfg))
  end.

End Shared.
End Go.

(** ** [src/md-downloader.go], with its panics *)

Module MdDownloaderP.
Section Program.
Context (E : Env) (G : GoRuntime) (cfg : Config).

(** [loadHistory()]. *)
Definition loadHistory : M GoHistory :=
  let history := MapFiles {| Files := ∅ |} in
  file <- os_Open E (HistoryFile cfg) ;;
  match file with
  | None => ret history
  | Some f =>
      let '(history, err) := json_Decode (Go.unmarshal_History E G) f history in
      _ <- (if err : bool then print (ParseHistoryFailed (HistoryFile cfg)) else ret tt) ;;
      ret history
  end.

(** The body of the loop over [contents.Tree] in [listMdFiles]
    (lines 100-115). *)
Definition processItem (repo : string) (item : TreeItem) (history : GoHistory)
    : MP GoHistory :=
  if is_md_blob item then
    if MdDownloader.shouldDownload (Path item) (Sha item) (as_read history) then
      if isIgnored cfg repo (Path item) then
        _ <~ lift (print (IgnoringFile (Path item))) ;;
        ret (Returned history)
      else
        _ <~ lift (print (DownloadingFile (Path item))) ;;
        let downloadURL :=
          "https://raw.githubusercontent.com/" +:+ repo +:+ "/master/" +:+ Path item in
        _ <~ lift (MdDownloader.downloadFile E cfg repo (Path item) downloadURL) ;;
        assign history (Path item) (Sha item)
    else
      _ <~ lift (print (SkippingFile (Path item))) ;;
      ret (Returned history)
  else ret (Returned history).

(** [listMdFiles(repo)]. *)
Definition listMdFiles (repo : string) : MP unit :=
  let repo := strings_TrimPrefix repo "https://github.com/" in
  resp <~ http_request E G (tree_request cfg repo) ;;
  match resp with
  | None => lift (print RequestFailed)
  | Some body =>
      let '(contents, err) := json_Decode (unmarshal_contents E) body [] in
      if err : bool then lift (print DecodeJSONFailed)
      else
        history <~ lift loadHistory ;;
        history <~ for_rangeP contents (processItem repo) history ;;
        lift (Go.saveHistory E G cfg history)
  end.

End Program.

(** The [Run] function of the command. *)
Definition Run (E : Env) (G : GoRuntime) (ignore : list string) (cfg : Config) : MP unit :=
  cfg <~ lift (parseIgnorePaths ignore cfg) ;;
  for_rangeP (Repos cfg) (λ repo _, listMdFiles E G cfg repo) tt.

End MdDownloaderP.

(** ** [src/unnamed/part_000], with its panics *)

Module MainP.
Section Program.
Context (E : Env) (G : GoRuntime) (cfg : Config).

(** [loadHistory()]. *)
Definition loadHistory : M GoHistory :=
  let history := MapFiles {| Files := ∅ |} in
  file <- os_Open E (HistoryFile cfg) ;;
  match file with
  | None =>
      _ <- print OpenHistoryFailed ;;
      ret history
  | Some f =>
      let '(history, err) := json_Decode (Go.unmarshal_History E G) f history in
      _ <- (if err : bool then print (ParseHistoryFailed (HistoryFile cfg)) else ret tt) ;;
      ret history
  end.

(** The body of the loop over [contents.Tree] in [listMdFiles]
    (lines 116-156); each [continue] ends the body. *)
Definition processItem (repo : string) (item : TreeItem) (history : GoHistory)
    : MP GoHistory :=
  if is_md_blob item then
    if Main.shouldDownload (Path item) (Sha item) (as_read history) then
      if isIgnored cfg repo (Path item) then
        _ <~ lift (print (IgnoringFile (Path item))) ;;
        ret (Returned history)
      else
        _ <~ lift (print (DownloadingFile (Path item))) ;;
        resp <~ http_request E G {| req_url := Url item;
                                    req_authorization := Some ("Bearer " +:+ AccessToken cfg) |} ;;
        match resp with
        | None =>
            _ <~ lift (print RequestFailed) ;;
            assign history (Path item) "ERROR"
        | Some body =>
            let '(content, err) := json_Decode (unmarshal_fileContent E) body EmptyString in
            if err : bool then
              _ <~ lift (print DecodeJSONFailed) ;;
              assign history (Path item) "ERROR"
            else
              match base64_DecodeString E content with
              | None =>
                  _ <~ lift (print DecodeBase64Failed) ;;
                  assign history (Path item) "ERROR"
              | Some decodedContent =>
                  _ <~ lift (Main.saveFile E cfg repo (Path item) decodedContent) ;;
                  assign history (Path item) (Sha item)
              end
        end
    else
      _ <~ lift (print (SkippingFile (Path item))) ;;
      ret (Returned history)
  else ret (Returned history).

(** [listMdFiles(repo)]. *)
Definition listMdFiles (repo : string) : MP unit :=
  let repo := strings_TrimPrefix repo "https://github.com/" in
  resp <~ http_request E G (tree_request cfg repo) ;;
  match resp with
  | None => lift (print RequestFailed)
  | Some body =>
      match io_ReadAll body with
      | None => lift (print ReadBodyFailed)
      | Some bodyBytes =>
          let '(contents, err) := json_Decode (unmarshal_contents E) (drained body) [] in
          if err : bool then lift (print DecodeJSONFailed)
          else
            history <~ lift loadHistory ;;
            history <~ for_rangeP contents (processItem repo) history ;;
            lift (Go.saveHistory E G cfg history)
      end
  end.

End Program.

(** The [Run] function of the command. *)
Definition Run (E : Env) (G : GoRuntime) (ignore : list string) (cfg : Config) : MP unit :=
  cfg <~ lift (parseIgnorePaths ignore cfg) ;;
  for_rangeP (Repos cfg) (λ repo _, listMdFiles E G cfg repo) tt.

End MainP.

(** ** Reading a run that may panic *)

(** The URL of the tree request for a repository as given on the command
    line. *)
Definition tree_url (repo : string) : string :=
  "https://api.github.com" +:+ "/repos/" +:+ repo_name repo +:+ "/git/trees/master?recursive=1".

(** The repositories a run gets to: those before the first one whose tree
    URL does not parse. *)
Fixpoint reached (G : GoRuntime) (repos : list string) : list string :=
  match repos with
  | [] => []
  | repo :: rest => if url_parses G (tree_url repo) then repo :: reached G rest else []
  end.


(** ** More concrete scenarios *)

(** A library that parses every URL but the tree URL of [own%zzer/project]
    (a percent sign needs two hexadecimal digits after it), and that reads a
    history file of the text [null_history] as a record whose [Files] is
    nil. *)
Definition null_history : string := "{" +:+ quoted "files" +:+ ": null}".

Definition gostd : GoRuntime :=
  {| url_parses := λ u,
       bool_decide (u ≠ "https://api.github.com/repos/own%zzer/project/git/trees/master?recursive=1");
     files_null := λ b, bool_decide (body_data b = null_history);
     marshal_nil := null_history |}.

(** [online], with a decoder that accepts [null_history] (storing
    nothing). *)
Definition online_null : Env :=
  {| http_Do := http_Do online;
     unmarshal_contents := unmarshal_contents online;
     unmarshal_fileContent := unmarshal_fileContent online;
     unmarshal_History := λ b v,
       if decide (body_data b = null_history) then (v, false) else toy_unmarshal b v;
     marshal_History := toy_marshal;
     base64_DecodeString := base64_DecodeString online;
     os_fault := os_fault online |}.

(** A working directory whose history file gives [null] for ["files"]. *)
Definition nulled : World :=
  {| nodes := {[resolve "history.json" := File null_history]}; trace := [] |}.


(** Two repositories, the first with a name that gives no URL. *)
Definition cfg_unparsable : Config :=
  {| AccessToken := "token"; Repos := ["own%zzer/project"; "owner/project"]; Output := "docs";
     HistoryFile := "history.json"; Ignore := ∅ |}.



(** * The library functions on examples *)

Example Split_ex1 : strings_Split "a.md,docs/b.md" ","%char = ["a.md"; "docs/b.md"].
Proof. reflexivity. Qed.
Example Split_ex2 : strings_Split "" ","%char = [""].
Proof. reflexivity. Qed.
Example Split_ex3 : strings_Split "a,,b," ","%char = ["a"; ""; "b"; ""].
Proof. reflexivity. Qed.
Example SplitN_ex1 : strings_SplitN "o/r:a:b,c" ":"%char 2 = ["o/r"; "a:b,c"].
Proof. reflexivity. Qed.
Example SplitN_ex2 : strings_SplitN "noColonHere" ":"%char 2 = ["noColonHere"].
Proof. reflexivity. Qed.
Example Ext_ex1 : filepath_Ext "docs/intro.md" = ".md".
Proof. reflexivity. Qed.
Example Ext_ex2 : filepath_Ext "docs.d/README" = "".
Proof. reflexivity. Qed.
Example Ext_ex3 : filepath_Ext "a.tar.md" = ".md".
Proof. reflexivity. Qed.
Example Base_ex1 : filepath_Base "owner/project" = "project".
Proof. reflexivity. Qed.
Example Base_ex2 : filepath_Base "owner/project//" = "project".
Proof. reflexivity. Qed.
Example Base_ex3 : filepath_Base "" = "." ∧ filepath_Base "///" = "/".
Proof. split; reflexivity. Qed.
Example Clean_ex1 : filepath_Clean "a//b/./c/../d/" = "a/b/d".
Proof. reflexivity. Qed.
Example Clean_ex2 : filepath_Clean "/../a" = "/a" ∧ filepath_Clean "../../a" = "../../a".
Proof. split; reflexivity. Qed.
Example Join_ex1 : filepath_Join ["docs"; "project"] = "docs/project".
Proof. reflexivity. Qed.
Example Join_ex2 : filepath_Join [""; "project"; ""; "x.md"] = "project/x.md".
Proof. reflexivity. Qed.
Example TrimPrefix_ex1 : strings_TrimPrefix "https://github.com/o/r" "https://github.com/" = "o/r".
Proof. reflexivity. Qed.

(** * The decision function [shouldDownload] *)

Lemma comma_ok_Some (m : gmap string string) (k v : string) :
  m !! k = Some v → comma_ok m k = (v, true).
Proof. intros H. unfold comma_ok. by rewrite H. Qed.

Lemma comma_ok_None (m : gmap string string) (k : string) :
  m !! k = None → comma_ok m k = (EmptyString, false).
Proof. intros H. unfold comma_ok. by rewrite H. Qed.

(** [Main.shouldDownload] in one equation: fetch unless the path is recorded
    with the current identifier, and that identifier is not ["ERROR"]. *)
Lemma Main_shouldDownload_spec (filePath sha : string) (history : History) :
  Main.shouldDownload filePath sha history =
    match Files history !! filePath with
    | None => true
    | Some lastSha => bool_decide (lastSha = "ERROR" ∨ lastSha ≠ sha)
    end.
Proof.
  unfold Main.shouldDownload, index.
  destruct (Files history !! filePath) as [lastSha|] eqn:Hl.
  - rewrite (comma_ok_Some _ _ _ Hl). simpl.
    destruct (decide (lastSha = "ERROR")) as [He|He].
    + rewrite (bool_decide_true _ He). simpl. symmetry. apply bool_decide_eq_true. by left.
    + rewrite (bool_decide_false _ He). simpl. apply bool_decide_ext. tauto.
  - by rewrite (comma_ok_None _ _ Hl).
Qed.

(** [MdDownloader.shouldDownload] in one equation. *)
Lemma MdDownloader_shouldDownload_spec (filePath sha : string) (history : History) :
  MdDownloader.shouldDownload filePath sha history =
    bool_decide (Files history !! filePath ≠ Some sha).
Proof.
  unfold MdDownloader.shouldDownload, index.
  destruct (Files history !! filePath) as [lastSha|] eqn:Hl.
  - rewrite (comma_ok_Some _ _ _ Hl). simpl.
    apply bool_decide_ext. split; congruence.
  - by rewrite (comma_ok_None _ _ Hl).
Qed.

(** C1. For every record and every path, when the path is absent from the
    record or recorded with the error sentinel ["ERROR"], [shouldDownload]
    of [part_000] answers [true] (fetch), whatever the current identifier
    [sha] is. *)
Theorem shouldDownload_absent_or_error (filePath sha : string) (history : History) :
  Files history !! filePath = None ∨ Files history !! filePath = Some "ERROR" →
  Main.shouldDownload filePath sha history = true.
Proof.
  intros [H|H]; rewrite Main_shouldDownload_spec, H; [done|].
  apply bool_decide_eq_true. by left.
Qed.

Lemma shouldDownload_absent_or_error_witness :
  Main.shouldDownload "a.md" "ERROR" {| Files := {["a.md" := "ERROR"]} |} = true
  ∧ Main.shouldDownload "b.md" "3f2a" {| Files := {["a.md" := "ERROR"]} |} = true.
Proof.
  split.
  - apply (shouldDownload_absent_or_error "a.md" "ERROR"). right. reflexivity.
  - apply (shouldDownload_absent_or_error "b.md" "3f2a"). left. reflexivity.
Defined.

(** * Effects of the basic steps *)

Lemma logged_nil (w : World) : logged w [] = w.
Proof. destruct w as [n t]. unfold logged. simpl. by rewrite app_nil_r. Qed.

Lemma logged_logged (w : World) (evs evs' : list Event) :
  logged (logged w evs) evs' = logged w (evs ++ evs').
Proof. unfold logged. simpl. by rewrite app_assoc. Qed.

Lemma print_logged (m : Message) (w : World) : print m w = (tt, logged w [Printed m]).
Proof. reflexivity. Qed.

Lemma http_send_logged (E : Env) (r : Request) (w : World) :
  http_send E r w = (http_Do E r, logged w [Sent r]).
Proof. reflexivity. Qed.

Lemma events_since_logged (w : World) (evs : list Event) :
  events_since w (logged w evs) = evs.
Proof. unfold events_since, logged. simpl. by rewrite drop_app_length. Qed.

Lemma for_range_app {A S : Type} (xs ys : list A) (body : A → S → M S) (s : S) (w : World) :
  for_range (xs ++ ys) body s w =
    for_range ys body (for_range xs body s w).1 (for_range xs body s w).2.
Proof.
  revert s w. induction xs as [|x xs IH]; intros s w; [done|].
  simpl. unfold bind. destruct (body x s w) as [s' w']. apply IH.
Qed.

Lemma for_range_singleton {A S : Type} (x : A) (body : A → S → M S) (s : S) (w : World) :
  for_range [x] body s w = body x s w.
Proof. simpl. unfold bind, ret. by destruct (body x s w). Qed.

(** C7. Change detection: for a path recorded with an identifier [A] other
    than ["ERROR"], [shouldDownload] (in both revisions) answers [true]
    (fetch) when the current identifier [B] differs from [A], and [false]
    when [B] equals [A]; in that case the loop body returns the record as it
    was, touches no file, and a candidate is announced as skipped. *)
Theorem shouldDownload_change_detection (filePath A B : string) (history : History) :
  Files history !! filePath = Some A →
  A ≠ "ERROR" →
  (B ≠ A →
     Main.shouldDownload filePath B history = true
     ∧ MdDownloader.shouldDownload filePath B history = true)
  ∧ (B = A →
     Main.shouldDownload filePath B history = false
     ∧ MdDownloader.shouldDownload filePath B history = false
     ∧ ∀ (E : Env) (cfg : Config) (repo : string) (item : TreeItem) (w : World),
         Path item = filePath → Sha item = B →
         let w' := if is_md_blob item then logged w [Printed (SkippingFile filePath)] else w in
         Main.processItem E cfg repo item history w = (history, w')
         ∧ MdDownloader.processItem E cfg repo item history w = (history, w')).
Proof.
  intros Hl HA.
  assert (Hmain : ∀ sha, Main.shouldDownload filePath sha history = bool_decide (A ≠ sha)).
  { intros sha. rewrite Main_shouldDownload_spec, Hl. apply bool_decide_ext. tauto. }
  assert (Hold : ∀ sha, MdDownloader.shouldDownload filePath sha history = bool_decide (A ≠ sha)).
  { intros sha. rewrite MdDownloader_shouldDownload_spec, Hl.
    apply bool_decide_ext. split; congruence. }
  split.
  - intros HB. rewrite Hmain, Hold. split; by apply bool_decide_eq_true.
  - intros ->. rewrite Hmain, Hold.
    split; [by apply bool_decide_eq_false; intros []|].
    split; [by apply bool_decide_eq_false; intros []|].
    intros E cfg repo item w Hp Hs w'.
    unfold Main.processItem, MdDownloader.processItem.
    rewrite Hp, Hs, Hmain, Hold. subst w'.
    destruct (is_md_blob item); [|done].
    rewrite bool_decide_false by (by intros []).
    done.
Qed.

Lemma shouldDownload_change_detection_witness :
  Main.shouldDownload "a.md" "9c1d" {| Files := {["a.md" := "3f2a"]} |} = true
  ∧ Main.shouldDownload "a.md" "3f2a" {| Files := {["a.md" := "3f2a"]} |} = false.
Proof.
  split.
  - apply (shouldDownload_change_detection "a.md" "3f2a" "9c1d"); [reflexivity|done|done].
  - apply (shouldDownload_change_detection "a.md" "3f2a" "3f2a"); [reflexivity|done|done].
Defined.

(** * Parsing the ignore entries *)

Lemma SplitN_2 (i : string) (sep : ascii) :
  strings_SplitN i sep 2 =
    match cut i sep with
    | Some (before, after) => [before; after]
    | None => [i]
    end.
Proof. simpl. by destruct (cut i sep) as [[??]|]. Qed.

(** What one entry does to the exclusions of [repo]. *)
Lemma parseIgnorePath_lookup (i repo : string) (cfg : Config) (w : World) :
  Ignore (parseIgnorePath i cfg w).1 !! repo =
    match cut i colon with
    | Some (r, rest) =>
        if decide (r = repo) then Some (strings_Split rest comma) else Ignore cfg !! repo
    | None => Ignore cfg !! repo
    end.
Proof.
  unfold parseIgnorePath. rewrite SplitN_2.
  destruct (cut i colon) as [[r rest]|]; simpl; [|done].
  destruct (decide (r = repo)) as [->|Hne].
  - by rewrite lookup_insert_eq.
  - by rewrite lookup_insert_ne.
Qed.

(** Entries for other repositories, and malformed entries, leave the
    exclusions of [repo] as they are. *)
Lemma parse_others_lookup (entries : list string) (repo : string) (cfg : Config) (w : World) :
  (∀ i rest, i ∈ entries → strings_SplitN i colon 2 ≠ [repo; rest]) →
  Ignore (for_range entries parseIgnorePath cfg w).1 !! repo = Ignore cfg !! repo.
Proof.
  revert cfg w. induction entries as [|i entries IH]; intros cfg w Hothers; [done|].
  simpl. unfold bind.
  destruct (parseIgnorePath i cfg w) as [cfg' w'] eqn:Hi.
  rewrite IH by (intros i' rest Hin; apply Hothers; by right).
  change cfg' with (cfg', w').1. rewrite <- Hi, parseIgnorePath_lookup.
  pose proof (Hothers i) as Hhead. rewrite SplitN_2 in Hhead.
  destruct (cut i colon) as [[r rest]|]; [|done].
  destruct (decide (r = repo)) as [->|]; [|done].
  exfalso. by apply (Hhead rest); [left|].
Qed.

Lemma isIgnored_lookup (cfg : Config) (repo filePath : string) (paths : list string) :
  Ignore cfg !! repo = Some paths →
  isIgnored cfg repo filePath = bool_decide (filePath ∈ paths).
Proof.
  intros H. unfold isIgnored. rewrite H. clear H.
  induction paths as [|p paths IH]; cbn [existsb].
  - symmetry. apply bool_decide_eq_false. by intros ?%elem_of_nil.
  - destruct (decide (p = filePath)) as [->|Hne].
    + rewrite (bool_decide_true (filePath = filePath)) by done.
      symmetry. apply bool_decide_eq_true. by left.
    + rewrite (bool_decide_false _ Hne), IH. cbn [orb].
      apply bool_decide_ext. rewrite elem_of_cons. split; [tauto|].
      intros [->|?]; [done|tauto].
Qed.

(** C10. When two well-formed ignore entries name the same repository, the
    paths of the later one replace those of the earlier one: after parsing,
    the exclusions of that repository are exactly the comma-separated paths
    of its last entry. *)
Theorem parseIgnorePaths_last_entry_wins
    (before between after : list string) (e1 e2 repo paths1 paths2 : string)
    (cfg : Config) (w : World) :
  strings_SplitN e1 colon 2 = [repo; paths1] →
  strings_SplitN e2 colon 2 = [repo; paths2] →
  (∀ i rest, i ∈ after → strings_SplitN i colon 2 ≠ [repo; rest]) →
  let cfg' := (parseIgnorePaths (before ++ [e1] ++ between ++ [e2] ++ after) cfg w).1 in
  Ignore cfg' !! repo = Some (strings_Split paths2 comma)
  ∧ ∀ filePath : string,
      isIgnored cfg' repo filePath = bool_decide (filePath ∈ strings_Split paths2 comma).
Proof.
  intros _ He2 Hafter cfg'.
  assert (Hl : Ignore cfg' !! repo = Some (strings_Split paths2 comma)).
  { subst cfg'. unfold parseIgnorePaths.
    rewrite !app_assoc, for_range_app, parse_others_lookup by done.
    rewrite for_range_app, for_range_singleton, parseIgnorePath_lookup.
    rewrite SplitN_2 in He2.
    destruct (cut e2 colon) as [[r rest]|]; [|done].
    injection He2 as -> ->. by rewrite decide_True. }
  split; [done|]. intros filePath. by apply isIgnored_lookup.
Qed.

Lemma parseIgnorePaths_last_entry_wins_witness :
  let cfg0 := {| AccessToken := ""; Repos := ["o/r"]; Output := "docs";
                 HistoryFile := "history.json"; Ignore := ∅ |} in
  let cfg' := (parseIgnorePaths
                 ([] ++ ["o/r:a.md,b.md"] ++ ["noColonHere"] ++ ["o/r:c.md"] ++ ["x/y:a.md"])
                 cfg0 {| nodes := ∅; trace := [] |}).1 in
  isIgnored cfg' "o/r" "a.md" = false ∧ isIgnored cfg' "o/r" "c.md" = true.
Proof.
  intros cfg0 cfg'.
  assert (H : ∀ filePath : string,
    isIgnored cfg' "o/r" filePath = bool_decide (filePath ∈ strings_Split "c.md" comma)).
  { apply (parseIgnorePaths_last_entry_wins [] ["noColonHere"] ["x/y:a.md"]
             "o/r:a.md,b.md" "o/r:c.md" "o/r" "a.md,b.md" "c.md" cfg0).
    - reflexivity.
    - reflexivity.
    - intros i rest Hi. apply list_elem_of_singleton in Hi. subst i. discriminate. }
  split; rewrite H; reflexivity.
Defined.

(** * A failed tree listing *)

(** Membership in a list that is written out. *)
Ltac in_list := repeat first [ apply list_elem_of_here | apply list_elem_of_further ].

(** Case analysis on such a membership. *)
Ltac in_cases H :=
  repeat (apply elem_of_cons in H; destruct H as [->|H]);
  try (by apply elem_of_nil in H).

(** [listMdFiles] of [src/md-downloader.go] when no tree is obtained: the
    request is sent, one message is printed, and nothing else happens. *)
Lemma MdDownloader_listMdFiles_no_tree (E : Env) (cfg : Config) (repo : string) (w : World) :
  tree_listing E cfg repo = None →
  ∃ m, m ∈ [RequestFailed; DecodeJSONFailed]
    ∧ MdDownloader.listMdFiles E cfg repo w
      = (tt, logged w [Sent (tree_request cfg (repo_name repo)); Printed m]).
Proof.
  unfold tree_listing, MdDownloader.listMdFiles, repo_name, bind.
  rewrite http_send_logged.
  destruct (http_Do E _) as [body|].
  - destruct (json_Decode _ body []) as [contents [|]]; [|done].
    intros _. exists DecodeJSONFailed. split; [in_list|].
    by rewrite print_logged, logged_logged.
  - intros _. exists RequestFailed. split; [in_list|].
    by rewrite print_logged, logged_logged.
Qed.

(** A decoder created on a stream that was read to its end reports an
    error. *)
Lemma json_Decode_drained {A : Type} (unmarshal : Body → A → A * bool) (r : Body) (v : A) :
  json_Decode unmarshal (drained r) v = (v, true).
Proof. reflexivity. Qed.

(** [listMdFiles] of [part_000] always stops before the loop: when the
    request succeeds and the body is read, the decoder finds the body
    drained. *)
Lemma Main_listMdFiles_stops (E : Env) (cfg : Config) (repo : string) (w : World) :
  ∃ m, m ∈ [RequestFailed; ReadBodyFailed; DecodeJSONFailed]
    ∧ Main.listMdFiles E cfg repo w
      = (tt, logged w [Sent (tree_request cfg (repo_name repo)); Printed m]).
Proof.
  unfold Main.listMdFiles, repo_name, bind.
  rewrite http_send_logged.
  destruct (http_Do E _) as [body|].
  - destruct (io_ReadAll body) as [bodyBytes|].
    + rewrite json_Decode_drained. exists DecodeJSONFailed. split; [in_list|].
      by rewrite print_logged, logged_logged.
    + exists ReadBodyFailed. split; [in_list|].
      by rewrite print_logged, logged_logged.
  - exists RequestFailed. split; [in_list|].
    by rewrite print_logged, logged_logged.
Qed.

(** C6. When the tree-listing request fails or its response does not
    decode, [listMdFiles] (in both revisions) stops at once: the only events
    are the request and one error message, so no tree entry is considered,
    and the file system, hence the history file, is left as it was. *)
Theorem listing_failure_aborts (E : Env) (cfg : Config) (repo : string) (w : World) :
  tree_listing E cfg repo = None →
  (∃ m, m ∈ [RequestFailed; DecodeJSONFailed]
     ∧ MdDownloader.listMdFiles E cfg repo w
       = (tt, logged w [Sent (tree_request cfg (repo_name repo)); Printed m]))
  ∧ (∃ m, m ∈ [RequestFailed; ReadBodyFailed; DecodeJSONFailed]
     ∧ Main.listMdFiles E cfg repo w
       = (tt, logged w [Sent (tree_request cfg (repo_name repo)); Printed m]))
  ∧ nodes (MdDownloader.listMdFiles E cfg repo w).2 = nodes w
  ∧ nodes (Main.listMdFiles E cfg repo w).2 = nodes w
  ∧ verdicts (events_since w (MdDownloader.listMdFiles E cfg repo w).2) = []
  ∧ verdicts (events_since w (Main.listMdFiles E cfg repo w).2) = [].
Proof.
  intros Hnone.
  destruct (MdDownloader_listMdFiles_no_tree E cfg repo w Hnone) as (m & Hm & Hold).
  destruct (Main_listMdFiles_stops E cfg repo w) as (m' & Hm' & Hmain).
  split; [by exists m|]. split; [by exists m'|].
  rewrite Hold, Hmain. simpl. rewrite !events_since_logged.
  in_cases Hm; in_cases Hm'; done.
Qed.

Lemma listing_failure_aborts_witness :
  nodes (MdDownloader.listMdFiles offline cfg_demo "owner/project" seeded).2 = nodes seeded.
Proof.
  apply (listing_failure_aborts offline cfg_demo "owner/project" seeded). reflexivity.
Defined.

(** The loop of [part_000]'s [listMdFiles] is never reached: whatever the
    network answers, the run ends after the request and one error message,
    without loading, changing or saving the history and without fetching a
    file. *)
Theorem Main_listMdFiles_never_syncs (E : Env) (cfg : Config) (repo : string) (w : World) :
  nodes (Main.listMdFiles E cfg repo w).2 = nodes w
  ∧ requests (events_since w (Main.listMdFiles E cfg repo w).2)
    = [tree_request cfg (repo_name repo)]
  ∧ verdicts (events_since w (Main.listMdFiles E cfg repo w).2) = [].
Proof.
  destruct (Main_listMdFiles_stops E cfg repo w) as (m & Hm & ->).
  simpl. rewrite !events_since_logged. in_cases Hm; done.
Qed.

(** * What a computation adds to the trace *)

Section Emits.
Context {A B : Type} (P : Event → Prop).

Lemma emits_ret (a : A) : emits P (ret a).
Proof. intros w. exists []. by rewrite app_nil_r. Qed.

Lemma emits_bind (m : M A) (k : A → M B) :
  emits P m → (∀ a, emits P (k a)) → emits P (bind m k).
Proof.
  intros Hm Hk w. unfold bind.
  destruct (Hm w) as (evs & Ht & HP). destruct (m w) as [a w']. simpl in Ht.
  destruct (Hk a w') as (evs' & Ht' & HP').
  exists (evs ++ evs'). rewrite Ht', Ht, app_assoc. split; [done|].
  by apply Forall_app.
Qed.

Lemma emits_silent (m : M A) : (∀ w, trace (m w).2 = trace w) → emits P m.
Proof. intros H w. exists []. by rewrite H, app_nil_r. Qed.

Lemma emits_emit (e : Event) : P e → emits P (emit e).
Proof. intros He w. exists [e]. split; [done|]. by constructor. Qed.

Lemma emits_weaken (Q : Event → Prop) (m : M A) :
  (∀ e, Q e → P e) → emits Q m → emits P m.
Proof.
  intros HQP Hm w. destruct (Hm w) as (evs & Ht & HQ).
  exists evs. split; [done|]. by eapply Forall_impl.
Qed.

End Emits.

Lemma emits_for_range {A B : Type} (P : Event → Prop)
    (xs : list B) (body : B → A → M A) (s : A) :
  (∀ x s', emits P (body x s')) → emits P (for_range xs body s).
Proof.
  intros Hbody. revert s. induction xs as [|x xs IH]; intros s; simpl.
  - apply emits_ret.
  - apply emits_bind; [apply Hbody|]. intros s'. apply IH.
Qed.

Lemma emits_events {A : Type} (P : Event → Prop) (m : M A) (w : World) :
  emits P m → Forall P (events_since w (m w).2).
Proof.
  intros Hm. destruct (Hm w) as (evs & Ht & HP).
  unfold events_since. by rewrite Ht, drop_app_length.
Qed.

Lemma emits_print (P : Event → Prop) (m : Message) : P (Printed m) → emits P (print m).
Proof. apply emits_emit. Qed.

Section Silent.
Context (E : Env).

Lemma os_Mkdir_trace (loc : Loc) (w : World) : trace (os_Mkdir E loc w).2 = trace w.
Proof.
  unfold os_Mkdir. destruct (os_fault E OpMkdir loc); [done|].
  destruct (os_Stat w loc) as [[|?]|]; [done..|].
  by destruct (os_Stat w (parent loc)) as [[|?]|].
Qed.

Lemma mkdir_all_trace (rooted : bool) (rev_elems : list string) (w : World) :
  trace (mkdir_all E rooted rev_elems w).2 = trace w.
Proof.
  revert w. induction rev_elems as [|e above IH]; intros w; simpl.
  - by destruct (os_Stat w (rooted, [])) as [[|?]|].
  - destruct (os_Stat w _) as [[|?]|]; [done..|].
    specialize (IH w). destruct (mkdir_all E rooted above w) as [[|] w']; [|done].
    simpl in IH. by rewrite os_Mkdir_trace.
Qed.

Lemma os_MkdirAll_trace (path : string) (w : World) : trace (os_MkdirAll E path w).2 = trace w.
Proof. unfold os_MkdirAll. case_decide; [done|]. apply mkdir_all_trace. Qed.

Lemma os_Create_trace (name : string) (w : World) : trace (os_Create E name w).2 = trace w.
Proof.
  unfold os_Create. case_decide; [done|].
  destruct (os_fault E OpCreate _); [done|].
  destruct (os_Stat w (resolve name)) as [[|?]|];
    by destruct (os_Stat w (parent (resolve name))) as [[|?]|].
Qed.

Lemma file_Write_trace (f : Loc) (s : string) (w : World) : trace (file_Write E f s w).2 = trace w.
Proof. unfold file_Write. by destruct (os_fault E OpWrite f). Qed.

Lemma io_Copy_trace (f : Loc) (src : Body) (w : World) : trace (io_Copy E f src w).2 = trace w.
Proof.
  unfold io_Copy, bind. pose proof (file_Write_trace f (body_data src) w) as H.
  by destruct (file_Write E f (body_data src) w).
Qed.

Lemma os_Open_trace (name : string) (w : World) : trace (os_Open E name w).2 = trace w.
Proof.
  unfold os_Open. case_decide; [done|].
  destruct (os_fault E OpOpen _); [done|].
  by destruct (os_Stat w (resolve name)) as [[|?]|].
Qed.

End Silent.

(** One step of a proof that a computation emits only events in [P]. *)
Ltac emits_step :=
  match goal with
  | |- emits _ (bind _ _) => apply emits_bind; [|intros ?]
  | |- emits _ (ret _) => apply emits_ret
  | |- emits _ (print _) => apply emits_print; try done
  | |- emits _ (emit _) => apply emits_emit; try done
  | |- emits _ (http_send _ _) => unfold http_send
  | |- emits _ (os_MkdirAll _ _) => apply emits_silent; intros ?; apply os_MkdirAll_trace
  | |- emits _ (os_Create _ _) => apply emits_silent; intros ?; apply os_Create_trace
  | |- emits _ (os_Open _ _) => apply emits_silent; intros ?; apply os_Open_trace
  | |- emits _ (file_Write _ _ _) => apply emits_silent; intros ?; apply file_Write_trace
  | |- emits _ (io_Copy _ _ _) => apply emits_silent; intros ?; apply io_Copy_trace
  | |- emits _ (if ?b then _ else _) => destruct b
  | |- emits _ (match ?x with _ => _ end) => destruct x
  end.

Section Reports.
Context (E : Env) (cfg : Config).

Lemma downloadFile_emits (repo filePath downloadURL : string) :
  emits no_verdict (MdDownloader.downloadFile E cfg repo filePath downloadURL).
Proof. unfold MdDownloader.downloadFile. repeat emits_step. Qed.

Lemma saveFile_emits (repo filePath content : string) :
  emits is_report (Main.saveFile E cfg repo filePath content).
Proof. unfold Main.saveFile. repeat emits_step. Qed.

Lemma saveHistory_emits (history : History) : emits is_report (saveHistory E cfg history).
Proof. unfold saveHistory. repeat emits_step. Qed.

Lemma MdDownloader_loadHistory_emits : emits is_report (MdDownloader.loadHistory E cfg).
Proof. unfold MdDownloader.loadHistory. repeat emits_step. Qed.

Lemma Main_loadHistory_emits : emits is_report (Main.loadHistory E cfg).
Proof. unfold Main.loadHistory. repeat emits_step. Qed.

Lemma is_report_no_verdict (e : Event) : is_report e → no_verdict e.
Proof. by destruct e. Qed.

End Reports.

(** * The loop body, entry by entry *)

Section LoopBody.
Context (E : Env) (cfg : Config) (repo : string).

Lemma no_verdict_respects (e : Event) : no_verdict e → respects_ignore cfg repo e.
Proof. intros He q v Hv. unfold no_verdict in He. congruence. Qed.

(** An excluded candidate is announced and left alone: as ignored when
    [shouldDownload] asks for a fetch, as skipped (up to date) otherwise. *)
Lemma MdDownloader_processItem_excluded (item : TreeItem) (h : History) (w : World) :
  isIgnored cfg repo (Path item) = true →
  is_md_blob item = true →
  MdDownloader.processItem E cfg repo item h w =
    (h, logged w [Printed (if MdDownloader.shouldDownload (Path item) (Sha item) h
                           then IgnoringFile (Path item) else SkippingFile (Path item))]).
Proof.
  intros Hi Hc. unfold MdDownloader.processItem. rewrite Hc, Hi.
  by destruct (MdDownloader.shouldDownload _ _ _).
Qed.

Lemma Main_processItem_excluded (item : TreeItem) (h : History) (w : World) :
  isIgnored cfg repo (Path item) = true →
  is_md_blob item = true →
  Main.processItem E cfg repo item h w =
    (h, logged w [Printed (if Main.shouldDownload (Path item) (Sha item) h
                           then IgnoringFile (Path item) else SkippingFile (Path item))]).
Proof.
  intros Hi Hc. unfold Main.processItem. rewrite Hc, Hi.
  by destruct (Main.shouldDownload _ _ _).
Qed.

(** An entry that is no candidate changes nothing. *)
Lemma MdDownloader_processItem_other_kind (item : TreeItem) (h : History) (w : World) :
  is_md_blob item = false → MdDownloader.processItem E cfg repo item h w = (h, w).
Proof. intros Hc. unfold MdDownloader.processItem. by rewrite Hc. Qed.

Lemma Main_processItem_other_kind (item : TreeItem) (h : History) (w : World) :
  is_md_blob item = false → Main.processItem E cfg repo item h w = (h, w).
Proof. intros Hc. unfold Main.processItem. by rewrite Hc. Qed.

(** The loop body returns the record it was given, or that record with
    the entry of the item's own path set. *)
Lemma MdDownloader_processItem_record (item : TreeItem) (h : History) (w : World) :
  (MdDownloader.processItem E cfg repo item h w).1 = h
  ∨ (MdDownloader.processItem E cfg repo item h w).1 = set_File h (Path item) (Sha item).
Proof.
  unfold MdDownloader.processItem, bind, ret.
  destruct (is_md_blob item); [|by left].
  destruct (MdDownloader.shouldDownload _ _ _); [|by left].
  destruct (isIgnored cfg repo (Path item)); [by left|].
  right. simpl. by destruct (MdDownloader.downloadFile _ _ _ _ _ _).
Qed.

Lemma Main_processItem_record (item : TreeItem) (h : History) (w : World) :
  (Main.processItem E cfg repo item h w).1 = h
  ∨ (Main.processItem E cfg repo item h w).1 = set_File h (Path item) (Sha item)
  ∨ (Main.processItem E cfg repo item h w).1 = set_File h (Path item) "ERROR".
Proof.
  unfold Main.processItem, bind, ret.
  destruct (is_md_blob item); [|by left].
  destruct (Main.shouldDownload _ _ _); [|by left].
  destruct (isIgnored cfg repo (Path item)); [by left|].
  right. simpl. destruct (http_Do E _) as [body|]; [|by right].
  destruct (json_Decode _ body _) as [content [|]]; [by right|].
  destruct (base64_DecodeString E content) as [decoded|]; [|by right].
  left. by destruct (Main.saveFile _ _ _ _ _ _).
Qed.

(** Entries of other paths are not touched by the loop body. *)
Lemma MdDownloader_processItem_frame (item : TreeItem) (h : History) (w : World) (p : string) :
  Path item ≠ p →
  Files (MdDownloader.processItem E cfg repo item h w).1 !! p = Files h !! p.
Proof.
  intros Hne. destruct (MdDownloader_processItem_record item h w) as [->| ->]; [done|].
  simpl. by rewrite lookup_insert_ne.
Qed.

Lemma Main_processItem_frame (item : TreeItem) (h : History) (w : World) (p : string) :
  Path item ≠ p →
  Files (Main.processItem E cfg repo item h w).1 !! p = Files h !! p.
Proof.
  intros Hne. destruct (Main_processItem_record item h w) as [->|[->| ->]]; [done|..];
    simpl; by rewrite lookup_insert_ne.
Qed.

(** The loop body announces no fetch of an excluded path. *)
Lemma MdDownloader_processItem_emits (item : TreeItem) (h : History) :
  emits (respects_ignore cfg repo) (MdDownloader.processItem E cfg repo item h).
Proof.
  unfold MdDownloader.processItem.
  destruct (is_md_blob item); [|apply emits_ret].
  destruct (MdDownloader.shouldDownload _ _ _).
  - destruct (isIgnored cfg repo (Path item)) eqn:Hi.
    + apply emits_bind; [|intros; apply emits_ret].
      apply emits_print. by intros q v [= <- <-] _.
    + apply emits_bind; [|intros _].
      { apply emits_print. intros q v [= <- <-] Hq. congruence. }
      apply emits_bind; [|intros; apply emits_ret].
      eapply emits_weaken; [apply no_verdict_respects|apply downloadFile_emits].
  - apply emits_bind; [|intros; apply emits_ret].
    apply emits_print. by intros q v [= <- <-] _.
Qed.

Lemma Main_processItem_emits (item : TreeItem) (h : History) :
  emits (respects_ignore cfg repo) (Main.processItem E cfg repo item h).
Proof.
  unfold Main.processItem.
  destruct (is_md_blob item); [|apply emits_ret].
  destruct (Main.shouldDownload _ _ _).
  - destruct (isIgnored cfg repo (Path item)) eqn:Hi.
    + apply emits_bind; [|intros; apply emits_ret].
      apply emits_print. by intros q v [= <- <-] _.
    + apply emits_bind; [|intros _].
      { apply emits_print. intros q v [= <- <-] Hq. congruence. }
      eapply emits_weaken; [apply no_verdict_respects|].
      repeat emits_step.
      eapply emits_weaken; [apply is_report_no_verdict|apply saveFile_emits].
  - apply emits_bind; [|intros; apply emits_ret].
    apply emits_print. by intros q v [= <- <-] _.
Qed.

End LoopBody.

(** * The loop over the tree *)

(** A record entry that no loop body touches is the same after the loop. *)
Lemma for_range_record_frame (body : TreeItem → History → M History)
    (contents : list TreeItem) (p : string) :
  (∀ item h w, item ∈ contents → Files (body item h w).1 !! p = Files h !! p) →
  ∀ h w, Files (for_range contents body h w).1 !! p = Files h !! p.
Proof.
  induction contents as [|item contents IH]; intros Hbody h w; [done|].
  simpl. unfold bind.
  pose proof (Hbody item h w (list_elem_of_here _ _)) as Hitem.
  destruct (body item h w) as [h' w']. simpl in Hitem.
  rewrite IH; [done|]. intros item' h'' w'' Hin. apply Hbody. by right.
Qed.

Lemma MdDownloader_excluded_frame (E : Env) (cfg : Config) (repo p : string)
    (item : TreeItem) (h : History) (w : World) :
  isIgnored cfg repo p = true →
  Files (MdDownloader.processItem E cfg repo item h w).1 !! p = Files h !! p.
Proof.
  intros Hi. destruct (decide (Path item = p)) as [<-|Hne].
  - destruct (is_md_blob item) eqn:Hc.
    + by rewrite MdDownloader_processItem_excluded.
    + by rewrite MdDownloader_processItem_other_kind.
  - by apply MdDownloader_processItem_frame.
Qed.

Lemma Main_excluded_frame (E : Env) (cfg : Config) (repo p : string)
    (item : TreeItem) (h : History) (w : World) :
  isIgnored cfg repo p = true →
  Files (Main.processItem E cfg repo item h w).1 !! p = Files h !! p.
Proof.
  intros Hi. destruct (decide (Path item = p)) as [<-|Hne].
  - destruct (is_md_blob item) eqn:Hc.
    + by rewrite Main_processItem_excluded.
    + by rewrite Main_processItem_other_kind.
  - by apply Main_processItem_frame.
Qed.

Lemma no_fetch_announced (cfg : Config) (repo p : string) (evs : list Event) :
  isIgnored cfg repo p = true →
  Forall (respects_ignore cfg repo) evs →
  (p, FETCH) ∉ verdicts evs.
Proof.
  intros Hi Hevs Hin. unfold verdicts in Hin.
  apply list_elem_of_omap in Hin as (e & He & Hv).
  rewrite Forall_forall in Hevs. by apply (Hevs e He p FETCH).
Qed.

(** C3, as the code has it. For a path excluded for its repository, every
    candidate entry with that path is announced and left alone by the loop
    body: no request is sent, no file is touched and the record is returned
    as it was.  The staleness test comes first in the code, so the
    announcement is "ignoring" (SKIP_EXCLUDED) when [shouldDownload] asks
    for a fetch and "skipping, already up to date" (SKIP_CURRENT) when it
    does not.  Over the whole loop the record entry of the path keeps the
    value it had, present or absent, and no fetch of the path is
    announced.  This holds in both revisions. *)
Theorem excluded_path_is_never_fetched (E : Env) (cfg : Config) (repo p : string) :
  isIgnored cfg repo p = true →
  (∀ (item : TreeItem) (h : History) (w : World),
     Path item = p → is_md_blob item = true →
     MdDownloader.processItem E cfg repo item h w =
       (h, logged w [Printed (if MdDownloader.shouldDownload p (Sha item) h
                              then IgnoringFile p else SkippingFile p)])
     ∧ Main.processItem E cfg repo item h w =
       (h, logged w [Printed (if Main.shouldDownload p (Sha item) h
                              then IgnoringFile p else SkippingFile p)]))
  ∧ (∀ (contents : list TreeItem) (h : History) (w : World),
     Files (for_range contents (MdDownloader.processItem E cfg repo) h w).1 !! p = Files h !! p
     ∧ Files (for_range contents (Main.processItem E cfg repo) h w).1 !! p = Files h !! p
     ∧ ((p, FETCH) ∉ verdicts
         (events_since w (for_range contents (MdDownloader.processItem E cfg repo) h w).2))
     ∧ ((p, FETCH) ∉ verdicts
         (events_since w (for_range contents (Main.processItem E cfg repo) h w).2))).
Proof.
  intros Hi. split.
  - intros item h w <- Hc. split.
    + by apply MdDownloader_processItem_excluded.
    + by apply Main_processItem_excluded.
  - intros contents h w. repeat split.
    + apply for_range_record_frame. intros. by apply MdDownloader_excluded_frame.
    + apply for_range_record_frame. intros. by apply Main_excluded_frame.
    + apply (no_fetch_announced cfg repo); [done|]. apply emits_events.
      apply emits_for_range. intros. apply MdDownloader_processItem_emits.
    + apply (no_fetch_announced cfg repo); [done|]. apply emits_events.
      apply emits_for_range. intros. apply Main_processItem_emits.
Qed.

Lemma excluded_path_is_never_fetched_witness :
  Files (for_range [readme_item] (Main.processItem offline cfg_readme_excluded "owner/project")
           {| Files := {["README.md" := "0000"]} |} fresh).1 !! "README.md"
  = Some "0000".
Proof.
  apply (excluded_path_is_never_fetched offline cfg_readme_excluded "owner/project" "README.md").
  reflexivity.
Defined.

(** C3, as the claim states it, fails: an excluded candidate whose recorded
    identifier equals the current one is announced as skipped because it is
    up to date (SKIP_CURRENT), not as ignored (SKIP_EXCLUDED), in both
    revisions. *)
Lemma excluded_current_path_is_skip_current :
  isIgnored cfg_readme_excluded "owner/project" (Path readme_item) = true
  ∧ is_md_blob readme_item = true
  ∧ verdicts (events_since fresh
       (Main.processItem offline cfg_readme_excluded "owner/project" readme_item
          {| Files := {["README.md" := "3f2a"]} |} fresh).2)
    = [("README.md", SKIP_CURRENT)]
  ∧ verdicts (events_since fresh
       (MdDownloader.processItem offline cfg_readme_excluded "owner/project" readme_item
          {| Files := {["README.md" := "3f2a"]} |} fresh).2)
    = [("README.md", SKIP_CURRENT)].
Proof. repeat split; reflexivity. Qed.

(** * Saving the history *)

(** When the history file can be created and written, [saveHistory] leaves
    it holding the encoding of the whole record, and changes no other
    node. *)
Lemma saveHistory_writes_record (E : Env) (cfg : Config) (h : History) (w : World) :
  (os_Create E (HistoryFile cfg) w).1 ≠ None →
  os_fault E OpWrite (resolve (HistoryFile cfg)) = false →
  saveHistory E cfg h w
    = (tt, set_node (resolve (HistoryFile cfg)) (File (marshal_History E h))
             (set_node (resolve (HistoryFile cfg)) (File EmptyString) w)).
Proof.
  intros Hc Hw. unfold saveHistory, bind.
  destruct (os_Create E (HistoryFile cfg) w) as [[f|] w'] eqn:Hcreate; [|done].
  assert (f = resolve (HistoryFile cfg)
          ∧ w' = set_node (resolve (HistoryFile cfg)) (File EmptyString) w) as [-> ->].
  { revert Hcreate. unfold os_Create. case_decide; [done|].
    destruct (os_fault E OpCreate _); [done|].
    destruct (os_Stat w (resolve (HistoryFile cfg))) as [[|?]|];
      destruct (os_Stat w (parent (resolve (HistoryFile cfg)))) as [[|?]|];
      intros [= <- <-] || intros [=]; done. }
  unfold file_Write. by rewrite Hw.
Qed.

Lemma saveHistory_file (E : Env) (cfg : Config) (h : History) (w : World) :
  (os_Create E (HistoryFile cfg) w).1 ≠ None →
  os_fault E OpWrite (resolve (HistoryFile cfg)) = false →
  nodes (saveHistory E cfg h w).2 !! resolve (HistoryFile cfg)
    = Some (File (marshal_History E h))
  ∧ ∀ loc, loc ≠ resolve (HistoryFile cfg) →
      nodes (saveHistory E cfg h w).2 !! loc = nodes w !! loc.
Proof.
  intros Hc Hw. rewrite saveHistory_writes_record by done. simpl. split.
  - by rewrite lookup_insert_eq.
  - intros loc Hne. by rewrite !lookup_insert_ne.
Qed.



(** [listMdFiles] of [src/md-downloader.go] once the tree is obtained: the
    history is loaded, the loop runs over the tree, and the record it
    returns is saved. *)
Lemma MdDownloader_listMdFiles_tree (E : Env) (cfg : Config) (repo : string) (w : World)
    (contents : list TreeItem) :
  tree_listing E cfg repo = Some contents →
  MdDownloader.listMdFiles E cfg repo w =
    let loaded :=
      MdDownloader.loadHistory E cfg (logged w [Sent (tree_request cfg (repo_name repo))]) in
    let synced :=
      for_range contents (MdDownloader.processItem E cfg (repo_name repo)) loaded.1 loaded.2 in
    saveHistory E cfg synced.1 synced.2.
Proof.
  unfold tree_listing, MdDownloader.listMdFiles, repo_name, bind.
  rewrite http_send_logged.
  destruct (http_Do E _) as [body|]; [|done].
  destruct (json_Decode _ body []) as [contents' [|]]; [done|].
  intros [= ->]. simpl.
  destruct (MdDownloader.loadHistory E cfg _) as [h0 w0]. simpl.
  by destruct (for_range contents _ h0 w0) as [h1 w1].
Qed.

(** The run of [src/md-downloader.go] on that scenario: the history file
    afterwards still records [old.md], next to the two Markdown files of
    the tree. *)
Example seeded_run_keeps_old_entry :
  let w' := (MdDownloader.listMdFiles online cfg_demo "owner/project" seeded).2 in
  nodes w' !! resolve "history.json"
  = Some (File (toy_marshal
      {| Files := {["old.md" := "1111"; "README.md" := "3f2a"; "guide.md" := "9c1d"]} |})).
Proof. by vm_compute. Qed.

(** * Two passes over the same tree ([src/md-downloader.go]) *)

Section TwoPasses.
Context (E : Env) (cfg : Config) (repo : string).

(** An entry holding the identifier the tree gives for its path survives
    the loop body. *)
Lemma processItem_keeps_current (item : TreeItem) (h : History) (w : World) (p s : string) :
  Files h !! p = Some s →
  (Path item = p → Sha item = s) →
  Files (MdDownloader.processItem E cfg repo item h w).1 !! p = Some s.
Proof.
  intros Hp Hsame.
  destruct (MdDownloader_processItem_record E cfg repo item h w) as [->| ->]; [done|].
  simpl. destruct (decide (Path item = p)) as [Heq|Hne].
  - rewrite <- (Hsame Heq), <- Heq. by rewrite lookup_insert_eq.
  - by rewrite lookup_insert_ne.
Qed.

(** After the loop body, the record holds the identifier of a candidate
    that is not excluded. *)
Lemma processItem_settles (item : TreeItem) (h : History) (w : World) :
  is_md_blob item = true →
  isIgnored cfg repo (Path item) = false →
  Files (MdDownloader.processItem E cfg repo item h w).1 !! Path item = Some (Sha item).
Proof.
  intros Hc Hi. unfold MdDownloader.processItem, bind, ret. rewrite Hc, Hi.
  destruct (MdDownloader.shouldDownload _ _ _) eqn:Hs.
  - simpl. destruct (MdDownloader.downloadFile _ _ _ _ _ _). simpl.
    by rewrite lookup_insert_eq.
  - simpl. rewrite MdDownloader_shouldDownload_spec in Hs.
    apply bool_decide_eq_false in Hs. by destruct (decide (Files h !! Path item = Some (Sha item))).
Qed.

(** The first pass settles the record for the tree. *)
Lemma first_pass_settles (done rest : list TreeItem) (h : History) (w : World) :
  one_sha_per_path (done ++ rest) →
  settled cfg repo h done →
  settled cfg repo (for_range rest (MdDownloader.processItem E cfg repo) h w).1 (done ++ rest).
Proof.
  revert done h w. induction rest as [|item rest IH]; intros done h w Hone Hdone.
  - by rewrite app_nil_r.
  - simpl. unfold bind.
    destruct (MdDownloader.processItem E cfg repo item h w) as [h' w'] eqn:Hitem.
    replace (done ++ item :: rest) with ((done ++ [item]) ++ rest) in *
      by by rewrite <- app_assoc.
    apply IH; [done|].
    change h' with (h', w').1. rewrite <- Hitem.
    intros i Hin Hc Hi. apply elem_of_app in Hin as [Hin|Hin].
    + apply processItem_keeps_current; [by apply Hdone|].
      intros Heq. apply Hone; [| |done]; rewrite !elem_of_app, list_elem_of_singleton; auto.
    + apply list_elem_of_singleton in Hin as ->. by apply processItem_settles.
Qed.



End TwoPasses.

(** * Creating, saving and loading the history file *)

Section HistoryFile.
Context (E : Env) (cfg : Config).

Lemma os_Create_Some (name : string) (w w' : World) (f : Loc) :
  os_Create E name w = (Some f, w') →
  name ≠ EmptyString
  ∧ os_fault E OpCreate (resolve name) = false
  ∧ is_start (resolve name) = false
  ∧ os_Stat w (resolve name) ≠ Some Dir
  ∧ os_Stat w (parent (resolve name)) = Some Dir
  ∧ f = resolve name
  ∧ w' = set_node (resolve name) (File EmptyString) w.
Proof.
  unfold os_Create. case_decide; [done|].
  destruct (os_fault E OpCreate _); [done|].
  assert (Hstart : os_Stat w (resolve name) ≠ Some Dir → is_start (resolve name) = false).
  { unfold os_Stat. by destruct (is_start (resolve name)). }
  destruct (os_Stat w (resolve name)) as [[|?]|];
    destruct (os_Stat w (parent (resolve name))) as [[|?]|];
    intros [= <- <-] || intros [=]; by rewrite Hstart.
Qed.

Lemma os_Create_succeeds (name : string) (w : World) :
  name ≠ EmptyString →
  os_fault E OpCreate (resolve name) = false →
  os_Stat w (resolve name) ≠ Some Dir →
  os_Stat w (parent (resolve name)) = Some Dir →
  os_Create E name w = (Some (resolve name), set_node (resolve name) (File EmptyString) w).
Proof.
  intros Hn Hf Hs Hp. unfold os_Create. rewrite decide_False, Hf, Hp by done.
  by destruct (os_Stat w (resolve name)) as [[|?]|].
Qed.

(** The three ways [saveHistory] can end. *)
Lemma saveHistory_cases (h : History) (w : World) :
  ((os_Create E (HistoryFile cfg) w).1 = None
   ∧ saveHistory E cfg h w = (tt, logged w [Printed (CreateHistoryFailed (HistoryFile cfg))]))
  ∨ ((os_Create E (HistoryFile cfg) w).1 ≠ None
     ∧ os_fault E OpWrite (resolve (HistoryFile cfg)) = true
     ∧ saveHistory E cfg h w =
         (tt, logged (set_node (resolve (HistoryFile cfg)) (File EmptyString) w)
                [Printed (SaveHistoryFailed (HistoryFile cfg))]))
  ∨ ((os_Create E (HistoryFile cfg) w).1 ≠ None
     ∧ os_fault E OpWrite (resolve (HistoryFile cfg)) = false
     ∧ saveHistory E cfg h w =
         (tt, set_node (resolve (HistoryFile cfg)) (File (marshal_History E h))
                (set_node (resolve (HistoryFile cfg)) (File EmptyString) w))).
Proof.
  destruct (os_Create E (HistoryFile cfg) w) as [[f|] w'] eqn:Hc.
  - right. destruct (os_Create_Some _ _ _ _ Hc) as (_ & _ & _ & _ & _ & -> & ->).
    destruct (os_fault E OpWrite (resolve (HistoryFile cfg))) eqn:Hw.
    + left. split; [done|]. split; [done|].
      unfold saveHistory, bind, file_Write. by rewrite Hc, Hw.
    + right. split; [done|]. split; [done|].
      apply saveHistory_writes_record; [by rewrite Hc|done].
  - left. split; [done|]. unfold saveHistory, bind. rewrite Hc.
    assert (w' = w) as ->; [|done].
    revert Hc. unfold os_Create. case_decide; [by intros [= <-]|].
    destruct (os_fault E OpCreate _); [by intros [= <-]|].
    destruct (os_Stat w (resolve _)) as [[|?]|];
      destruct (os_Stat w (parent (resolve (HistoryFile cfg)))) as [[|?]|];
      by intros [= <-].
Qed.

(** Whatever [saveHistory] does, it sends no request and announces no
    verdict; its messages are the two save failures. *)
Lemma saveHistory_events (h : History) (w : World) :
  ∃ evs, trace (saveHistory E cfg h w).2 = trace w ++ evs
         ∧ Forall is_report evs
         ∧ ((os_Create E (HistoryFile cfg) w).1 = None →
            Printed (CreateHistoryFailed (HistoryFile cfg)) ∈ evs)
         ∧ (os_fault E OpWrite (resolve (HistoryFile cfg)) = true →
            (os_Create E (HistoryFile cfg) w).1 ≠ None →
            Printed (SaveHistoryFailed (HistoryFile cfg)) ∈ evs).
Proof.
  destruct (saveHistory_cases h w) as [(Hc & ->)|[(Hc & Hw & ->)|(Hc & Hw & ->)]]; simpl.
  - eexists. split; [done|]. split; [by repeat constructor|].
    split; [intros; in_list|done].
  - eexists. split; [done|]. split; [by repeat constructor|].
    split; [done|intros; in_list].
  - exists []. rewrite app_nil_r. split; [done|]. split; [done|].
    split; [done|congruence].
Qed.

(** [loadHistory] on a readable history file whose content decodes without
    error. *)
Lemma MdDownloader_loadHistory_reads (w : World) (content : string) (h : History) :
  HistoryFile cfg ≠ EmptyString →
  os_fault E OpOpen (resolve (HistoryFile cfg)) = false →
  os_Stat w (resolve (HistoryFile cfg)) = Some (File content) →
  json_Decode (unmarshal_History E) (file_body content) empty_History = (h, false) →
  MdDownloader.loadHistory E cfg w = (h, w).
Proof.
  intros Hn Hf Hs Hd. unfold MdDownloader.loadHistory, bind, os_Open.
  rewrite decide_False, Hf, Hs by done.
  fold (file_body content). fold empty_History. by rewrite Hd.
Qed.


End HistoryFile.

Lemma requests_app (evs evs' : list Event) : requests (evs ++ evs') = requests evs ++ requests evs'.
Proof. apply omap_app. Qed.

Lemma verdicts_app (evs evs' : list Event) : verdicts (evs ++ evs') = verdicts evs ++ verdicts evs'.
Proof. apply omap_app. Qed.

Lemma reports_are_quiet (evs : list Event) :
  Forall is_report evs → requests evs = [] ∧ verdicts evs = [].
Proof.
  induction 1 as [|e evs He _ [IHr IHv]]; [done|].
  destruct e as [r|m]; [done|]. split; [done|].
  destruct m; first [discriminate He | exact IHv].
Qed.




(** The world just before [saveHistory] in a run that obtained a tree
    extends the trace of the world the run started in. *)
Lemma presave_trace (E : Env) (cfg : Config) (repo : string) (contents : list TreeItem)
    (w : World) :
  ∃ evs,
    trace (for_range contents (MdDownloader.processItem E cfg repo)
             (MdDownloader.loadHistory E cfg w).1 (MdDownloader.loadHistory E cfg w).2).2
    = trace w ++ evs.
Proof.
  destruct (MdDownloader_loadHistory_emits E cfg w) as (evs & Hl & _).
  destruct (MdDownloader.loadHistory E cfg w) as [h0 w0]. simpl in *.
  destruct (emits_for_range (respects_ignore cfg repo) contents
              (MdDownloader.processItem E cfg repo) h0
              (λ x s', MdDownloader_processItem_emits E cfg repo x s') w0) as (evs' & Hf & _).
  exists (evs ++ evs'). by rewrite Hf, Hl, app_assoc.
Qed.


Lemma pos_of_bits_of_pos (p : positive) : pos_of_bits (bits_of_pos p) = p.
Proof. induction p as [p IH|p IH|]; simpl; [| |done]; by rewrite IH. Qed.

(** The stand-in codec reads back what it wrote. *)
Lemma toy_codec_roundtrip (h : History) :
  json_Decode toy_unmarshal (file_body (toy_marshal h)) empty_History = (h, false).
Proof.
  unfold json_Decode, toy_unmarshal, toy_marshal. simpl.
  rewrite pos_of_bits_of_pos, decode_encode. simpl.
  destruct h as [m]. by rewrite (right_id_L ∅ (∪)).
Qed.

Lemma demo_tree_one_sha_per_path : one_sha_per_path demo_tree.
Proof. intros i j Hi Hj. in_cases Hi; in_cases Hj; done. Qed.

(** The two runs on that scenario: the first fetches both Markdown files
    (the download of [guide.md] fails, its identifier is recorded all the
    same), the second skips both. *)
Example two_runs_verdicts :
  let w1 := (MdDownloader.listMdFiles online cfg_demo "owner/project" fresh).2 in
  let w2 := (MdDownloader.listMdFiles online cfg_demo "owner/project" w1).2 in
  verdicts (events_since fresh w1) = [("README.md", FETCH); ("guide.md", FETCH)]
  ∧ verdicts (events_since w1 w2) = [("README.md", SKIP_CURRENT); ("guide.md", SKIP_CURRENT)]
  ∧ nodes w1 !! resolve "docs/project/README.md" = Some (File "# Project")
  ∧ nodes w1 !! resolve "docs/project/guide.md" = None.
Proof. by vm_compute. Qed.

(** * Loading the history *)

(** C9, as the code has it. [loadHistory] (in both revisions) never changes
    the file system and always returns a record.  The record is empty when
    the history file is missing or cannot be opened, and when it is opened
    but delivers no data (an empty file, a directory).  Otherwise the
    record is whatever the decoder stored into the initially empty record,
    also when the decoder reports an error: it is empty exactly when the
    failed decoder stored nothing.  What is printed: when the file cannot
    be opened, [part_000] warns that it failed to open the history file and
    [src/md-downloader.go] prints nothing; when the decoder reports an
    error, both print the one warning that the history file failed to
    parse; otherwise nothing. *)
Theorem loadHistory_on_failure (E : Env) (cfg : Config) (w : World) :
  nodes (Main.loadHistory E cfg w).2 = nodes w
  ∧ nodes (MdDownloader.loadHistory E cfg w).2 = nodes w
  ∧ ((os_Open E (HistoryFile cfg) w).1 = None →
     (Main.loadHistory E cfg w).1 = empty_History
     ∧ (MdDownloader.loadHistory E cfg w).1 = empty_History)
  ∧ (os_Stat w (resolve (HistoryFile cfg)) = None →
     (os_Open E (HistoryFile cfg) w).1 = None)
  ∧ (∀ f, (os_Open E (HistoryFile cfg) w).1 = Some f →
     (body_data f = EmptyString →
      (Main.loadHistory E cfg w).1 = empty_History
      ∧ (MdDownloader.loadHistory E cfg w).1 = empty_History)
     ∧ (Main.loadHistory E cfg w).1 = (json_Decode (unmarshal_History E) f empty_History).1
     ∧ (MdDownloader.loadHistory E cfg w).1
       = (json_Decode (unmarshal_History E) f empty_History).1)
  ∧ ((os_Open E (HistoryFile cfg) w).1 = None →
     (Main.loadHistory E cfg w).2 = logged w [Printed OpenHistoryFailed]
     ∧ (MdDownloader.loadHistory E cfg w).2 = w)
  ∧ (∀ f, (os_Open E (HistoryFile cfg) w).1 = Some f →
     ((json_Decode (unmarshal_History E) f empty_History).2 = true →
      (Main.loadHistory E cfg w).2
        = logged w [Printed (ParseHistoryFailed (HistoryFile cfg))]
      ∧ (MdDownloader.loadHistory E cfg w).2
        = logged w [Printed (ParseHistoryFailed (HistoryFile cfg))])
     ∧ ((json_Decode (unmarshal_History E) f empty_History).2 = false →
        (Main.loadHistory E cfg w).2 = w ∧ (MdDownloader.loadHistory E cfg w).2 = w)).
Proof.
  assert (Hopen : (os_Open E (HistoryFile cfg) w).2 = w).
  { unfold os_Open. case_decide; [done|]. destruct (os_fault E OpOpen _); [done|].
    by destruct (os_Stat w _) as [[|?]|]. }
  assert (Hmissing : os_Stat w (resolve (HistoryFile cfg)) = None →
                     (os_Open E (HistoryFile cfg) w).1 = None).
  { intros Hs. unfold os_Open. rewrite Hs. case_decide; [done|].
    by destruct (os_fault E OpOpen _). }
  assert (Heof : ∀ f, body_data f = EmptyString →
                 json_Decode (unmarshal_History E) f empty_History = (empty_History, true)).
  { intros f Hf. unfold json_Decode. by rewrite decide_True. }
  unfold Main.loadHistory, MdDownloader.loadHistory, bind. fold empty_History.
  destruct (os_Open E (HistoryFile cfg) w) as [[f|] w'] eqn:Ho; simpl in Hopen; subst w'.
  - destruct (json_Decode (unmarshal_History E) f empty_History) as [h [|]] eqn:Hd; simpl.
    + split; [done|]. split; [done|]. split; [done|]. split; [done|]. split; [|split; [done|]].
      * intros f' [= <-]. rewrite Hd. split; [|done].
        intros Hf. rewrite (Heof f Hf) in Hd. by injection Hd as <-.
      * intros f' [= <-]. rewrite Hd. simpl. split; [done|discriminate].
    + split; [done|]. split; [done|]. split; [done|]. split; [done|]. split; [|split; [done|]].
      * intros f' [= <-]. rewrite Hd. split; [|done].
        intros Hf. rewrite (Heof f Hf) in Hd. by injection Hd as <-.
      * intros f' [= <-]. rewrite Hd. simpl. split; [discriminate|done].
  - simpl. repeat split; done.
Qed.

(** C9, as the claim states it, fails: on a history file whose content the
    decoder rejects after storing entries, [loadHistory] (in both
    revisions) prints its warning and returns those entries, not an empty
    record. *)
Lemma loadHistory_keeps_entries_of_failed_decode :
  (json_Decode (unmarshal_History typed_decoder) (file_body mistyped_history) empty_History).2
    = true
  ∧ Main.loadHistory typed_decoder cfg_demo mistyped
    = ({| Files := {["a.md" := "3f2a"; "b.md" := EmptyString]} |},
       logged mistyped [Printed (ParseHistoryFailed "history.json")])
  ∧ MdDownloader.loadHistory typed_decoder cfg_demo mistyped
    = ({| Files := {["a.md" := "3f2a"; "b.md" := EmptyString]} |},
       logged mistyped [Printed (ParseHistoryFailed "history.json")])
  ∧ Main.shouldDownload "a.md" "3f2a"
      (Main.loadHistory typed_decoder cfg_demo mistyped).1 = false.
Proof. by vm_compute. Qed.

(** * Failures while fetching and writing a file *)

Section Failures.
Context (E : Env) (cfg : Config) (repo : string).


(** In [part_000], once the content of a selected file is fetched and
    decoded, the loop body records the identifier of the tree entry
    whatever [saveFile] does: a failure of [saveFile] is printed by
    [saveFile] and not seen by its caller. *)
Lemma Main_record_ignores_saveFile (item : TreeItem) (h : History) (w : World)
    (body : Body) (content decoded : string) :
  is_md_blob item = true →
  Main.shouldDownload (Path item) (Sha item) h = true →
  isIgnored cfg repo (Path item) = false →
  http_Do E (blob_request cfg item) = Some body →
  json_Decode (unmarshal_fileContent E) body EmptyString = (content, false) →
  base64_DecodeString E content = Some decoded →
  (Main.processItem E cfg repo item h w).1 = set_File h (Path item) (Sha item).
Proof.
  intros Hc Hs Hi Hb Hj Hd. unfold Main.processItem, bind. rewrite Hc, Hs, Hi.
  rewrite print_logged, http_send_logged. fold (blob_request cfg item).
  rewrite Hb, Hj, Hd. by destruct (Main.saveFile _ _ _ _ _ _).
Qed.

(** In [src/md-downloader.go] the loop body records the identifier of
    every selected file, whatever [downloadFile] does. *)
Lemma MdDownloader_record_ignores_downloadFile (item : TreeItem) (h : History) (w : World) :
  is_md_blob item = true →
  MdDownloader.shouldDownload (Path item) (Sha item) h = true →
  isIgnored cfg repo (Path item) = false →
  (MdDownloader.processItem E cfg repo item h w).1 = set_File h (Path item) (Sha item).
Proof.
  intros Hc Hs Hi. unfold MdDownloader.processItem, bind. rewrite Hc, Hs, Hi.
  rewrite print_logged. by destruct (MdDownloader.downloadFile _ _ _ _ _ _).
Qed.

End Failures.


(** C2 on a concrete input. [docs] is a regular file, so [saveFile] cannot
    make the directory [docs/project] and prints its failure; the loop
    body of [part_000] all the same records the identifier [3f2a] for
    [README.md], not ["ERROR"], and writes no file.  On the next entry the
    loop goes on.  In [src/md-downloader.go], where the download itself
    fails as well, the identifier is recorded too. *)
Theorem materialize_failure_records_identifier :
  Main.processItem api cfg_demo "owner/project" readme_item empty_History blocked
  = ({| Files := {["README.md" := "3f2a"]} |},
     logged blocked [Printed (DownloadingFile "README.md");
                     Sent (blob_request cfg_demo readme_item);
                     Printed (CreateDirectoryFailed "docs/project")])
  ∧ Main.shouldDownload "README.md" "3f2a" {| Files := {["README.md" := "3f2a"]} |} = false
  ∧ (for_range [readme_item; guide_item] (Main.processItem api cfg_demo "owner/project")
       empty_History blocked).1
    = {| Files := {["README.md" := "3f2a"; "guide.md" := "ERROR"]} |}
  ∧ (MdDownloader.processItem offline cfg_demo "owner/project" readme_item
       empty_History blocked).1
    = {| Files := {["README.md" := "3f2a"]} |}.
Proof. by vm_compute. Qed.

(** * Where a file is written *)

(** C4 on a concrete input. In a fresh working directory [saveFile] makes
    [docs/project] and then fails to create [docs/project/docs/intro.md]:
    the directory [docs/project/docs] is missing and nothing makes it.
    [downloadFile] of [src/md-downloader.go] does the same. *)
Theorem nested_path_is_not_written :
  filepath_Join [filepath_Join [Output cfg_demo; filepath_Base "owner/project"]; "docs/intro.md"]
    = "docs/project/docs/intro.md"
  ∧ Main.saveFile offline cfg_demo "owner/project" "docs/intro.md" "# Intro" fresh
    = (tt, {| nodes := {[resolve "docs" := Dir; resolve "docs/project" := Dir]};
              trace := [Printed (CreateFileFailed "docs/project/docs/intro.md")] |})
  ∧ MdDownloader.downloadFile online cfg_demo "owner/project" "docs/intro.md"
      "https://raw.githubusercontent.com/owner/project/master/docs/intro.md" fresh
    = (tt, {| nodes := {[resolve "docs" := Dir; resolve "docs/project" := Dir]};
              trace := [Sent {| req_url :=
                                  "https://raw.githubusercontent.com/owner/project/master/docs/intro.md";
                                req_authorization := None |};
                        Printed (CreateFileFailed "docs/project/docs/intro.md")] |}).
Proof. by vm_compute. Qed.

(** When [docs/project] can be made and the directory that is to hold the
    file exists, [saveFile] leaves the content in the file at
    [Output/base(repo)/filePath], whatever was there before. *)
Lemma Main_saveFile_writes (E : Env) (cfg : Config) (repo filePath content : string)
    (w w1 : World) :
  let fileDir := filepath_Join [Output cfg; filepath_Base repo] in
  let target := filepath_Join [fileDir; filePath] in
  os_MkdirAll E fileDir w = (true, w1) →
  target ≠ EmptyString →
  os_fault E OpCreate (resolve target) = false →
  os_fault E OpWrite (resolve target) = false →
  os_Stat w1 (resolve target) ≠ Some Dir →
  os_Stat w1 (parent (resolve target)) = Some Dir →
  Main.saveFile E cfg repo filePath content w
  = (tt, logged (set_node (resolve target) (File content)
                   (set_node (resolve target) (File EmptyString) w1))
           [Printed (FileDownloaded target)]).
Proof.
  intros fileDir target Hmk Hn Hfc Hfw Hs Hp. subst fileDir target.
  unfold Main.saveFile, bind. rewrite Hmk. cbn [negb].
  rewrite os_Create_succeeds by done. unfold file_Write. by rewrite Hfw.
Qed.

(** A file at the top of the repository is written to
    [docs/project/README.md] in a fresh working directory, and written
    over by the next save. *)
Example top_level_file_is_written :
  let w1 := (Main.saveFile offline cfg_demo "owner/project" "README.md" "# Project" fresh).2 in
  let w2 := (Main.saveFile offline cfg_demo "owner/project" "README.md" "# Project 2" w1).2 in
  nodes w1 !! resolve "docs/project/README.md" = Some (File "# Project")
  ∧ nodes w2 !! resolve "docs/project/README.md" = Some (File "# Project 2")
  ∧ trace w2 = [Printed (FileDownloaded "docs/project/README.md");
                Printed (FileDownloaded "docs/project/README.md")].
Proof. by vm_compute. Qed.

(** * Candidates and malformed ignore entries *)

(** Only blobs whose path ends in [.md] are candidates; any other entry
    passes through the loop body of either revision without effect. *)
Theorem only_md_blobs_are_candidates :
  (∀ item, Path item = "README.txt" → is_md_blob item = false)
  ∧ (∀ item, Path item = "guide.md" → is_md_blob item = bool_decide (Type_ item = "blob"))
  ∧ (∀ (E : Env) (cfg : Config) (repo : string) (item : TreeItem) (h : History) (w : World),
       is_md_blob item = false →
       Main.processItem E cfg repo item h w = (h, w)
       ∧ MdDownloader.processItem E cfg repo item h w = (h, w)).
Proof.
  split; [|split].
  - intros item Hp. unfold is_md_blob. rewrite Hp. apply andb_false_r.
  - intros item Hp. unfold is_md_blob. rewrite Hp. apply andb_true_r.
  - intros. split.
    + by apply Main_processItem_other_kind.
    + by apply MdDownloader_processItem_other_kind.
Qed.

Lemma parse_config_any_world (entries : list string) (cfg : Config) (w w' : World) :
  (for_range entries parseIgnorePath cfg w).1 = (for_range entries parseIgnorePath cfg w').1.
Proof.
  revert cfg w w'. induction entries as [|i entries IH]; intros cfg w w'; [done|].
  simpl. unfold bind.
  assert (Hi : (parseIgnorePath i cfg w).1 = (parseIgnorePath i cfg w').1).
  { unfold parseIgnorePath. by destruct (strings_SplitN i colon 2) as [|? [|? ?]]. }
  destruct (parseIgnorePath i cfg w) as [c1 w1], (parseIgnorePath i cfg w') as [c2 w2].
  simpl in Hi. subst c2. apply IH.
Qed.

(** An ignore entry without a colon is reported and dropped; the entries
    after it are parsed as if it were not there. *)
Theorem malformed_ignore_entry_is_skipped
    (before after : list string) (bad : string) (cfg : Config) (w : World) :
  cut bad colon = None →
  (parseIgnorePaths (before ++ [bad] ++ after) cfg w).1
    = (parseIgnorePaths (before ++ after) cfg w).1
  ∧ Printed (InvalidIgnorePath bad)
    ∈ events_since w (parseIgnorePaths (before ++ [bad] ++ after) cfg w).2.
Proof.
  intros Hbad. unfold parseIgnorePaths.
  assert (Hstep : ∀ c w0, parseIgnorePath bad c w0
                          = (c, logged w0 [Printed (InvalidIgnorePath bad)])).
  { intros c w0. unfold parseIgnorePath. by rewrite SplitN_2, Hbad. }
  rewrite !for_range_app, for_range_singleton, Hstep. simpl. split.
  - apply parse_config_any_world.
  - assert (Hgrow : ∀ entries c, emits (λ _, True) (for_range entries parseIgnorePath c)).
    { intros entries c. apply emits_for_range. intros i c'. unfold parseIgnorePath.
      destruct (strings_SplitN i colon 2) as [|? [|? ?]]; repeat emits_step. }
    destruct (Hgrow before (set_Ignore cfg ∅) w) as (evs & Ht & _).
    destruct (for_range before parseIgnorePath (set_Ignore cfg ∅) w) as [c0 w0].
    simpl in *.
    destruct (Hgrow after c0 (logged w0 [Printed (InvalidIgnorePath bad)])) as (evs' & Ht' & _).
    unfold events_since. rewrite Ht'. simpl. rewrite Ht, <- !app_assoc, drop_app_length.
    rewrite !elem_of_app, list_elem_of_singleton. auto.
Qed.

Lemma malformed_ignore_entry_is_skipped_witness :
  (parseIgnorePaths (["o/r:a.md"] ++ ["noColonHere"] ++ ["x/y:b.md"]) cfg_demo fresh).1
  = (parseIgnorePaths (["o/r:a.md"] ++ ["x/y:b.md"]) cfg_demo fresh).1.
Proof.
  apply (malformed_ignore_entry_is_skipped ["o/r:a.md"] ["x/y:b.md"] "noColonHere" cfg_demo fresh).
  reflexivity.
Defined.

(** * The two revisions side by side *)

(** [src/md-downloader.go] has no error sentinel: a path recorded with the
    text ["ERROR"] is compared like any other identifier. *)
Lemma MdDownloader_shouldDownload_no_sentinel (filePath sha : string) (history : History) :
  Files history !! filePath = Some "ERROR" →
  MdDownloader.shouldDownload filePath sha history = bool_decide (sha ≠ "ERROR").
Proof.
  intros H. rewrite MdDownloader_shouldDownload_spec, H.
  apply bool_decide_ext. split; congruence.
Qed.

(** The loop of [part_000] run twice by hand over an entry whose fetch
    fails: the first pass records ["ERROR"], the second pass fetches
    again. *)
Example Main_loop_retries_failed_fetch :
  let pass1 := for_range [guide_item] (Main.processItem api cfg_demo "owner/project")
                 empty_History fresh in
  let pass2 := for_range [guide_item] (Main.processItem api cfg_demo "owner/project")
                 pass1.1 pass1.2 in
  pass1.1 = {| Files := {["guide.md" := "ERROR"]} |}
  ∧ verdicts (events_since pass1.2 pass2.2) = [("guide.md", FETCH)].
Proof. by vm_compute. Qed.

(** * Repository names and ignore keys *)

Lemma strip_prefix_app (prefix s : string) : strip_prefix prefix (prefix +:+ s) = Some s.
Proof. induction prefix as [|c prefix IH]; simpl; [done|]. by rewrite decide_True. Qed.

Lemma repo_name_url (r : string) : repo_name ("https://github.com/" +:+ r) = r.
Proof. unfold repo_name, strings_TrimPrefix. by rewrite strip_prefix_app. Qed.

Lemma repo_name_plain (r : string) :
  strip_prefix "https://github.com/" r = None → repo_name r = r.
Proof. intros H. unfold repo_name, strings_TrimPrefix. by rewrite H. Qed.

(** [listMdFiles] uses its argument only through the stripped name. *)
Lemma listMdFiles_repo_name (E : Env) (cfg : Config) (a b : string) (w : World) :
  repo_name a = repo_name b →
  MdDownloader.listMdFiles E cfg a w = MdDownloader.listMdFiles E cfg b w
  ∧ Main.listMdFiles E cfg a w = Main.listMdFiles E cfg b w.
Proof.
  unfold repo_name. intros H.
  unfold MdDownloader.listMdFiles, Main.listMdFiles. by rewrite H.
Qed.

(** A repository given by its URL [https://github.com/owner/project] is
    treated, in both revisions, exactly as the repository given as
    [owner/project]: same requests, same exclusions, same output
    directory. *)
Theorem listMdFiles_accepts_repository_url
    (E : Env) (cfg : Config) (r : string) (w : World) :
  strip_prefix "https://github.com/" r = None →
  MdDownloader.listMdFiles E cfg ("https://github.com/" +:+ r) w
    = MdDownloader.listMdFiles E cfg r w
  ∧ Main.listMdFiles E cfg ("https://github.com/" +:+ r) w = Main.listMdFiles E cfg r w.
Proof.
  intros H. apply listMdFiles_repo_name.
  by rewrite repo_name_url, repo_name_plain.
Qed.

Lemma listMdFiles_accepts_repository_url_witness :
  MdDownloader.listMdFiles online cfg_demo ("https://github.com/" +:+ "owner/project") fresh
  = MdDownloader.listMdFiles online cfg_demo "owner/project" fresh.
Proof.
  apply (listMdFiles_accepts_repository_url online cfg_demo "owner/project" fresh).
  reflexivity.
Defined.

(** After parsing, a repository that no well-formed entry names has no
    exclusions. *)
Lemma parse_unnamed_lookup (ignore : list string) (repo : string) (cfg : Config) (w : World) :
  (∀ i rest, i ∈ ignore → strings_SplitN i colon 2 ≠ [repo; rest]) →
  Ignore (parseIgnorePaths ignore cfg w).1 !! repo = None.
Proof. intros H. unfold parseIgnorePaths. by rewrite parse_others_lookup. Qed.

Lemma isIgnored_no_entry (cfg : Config) (repo filePath : string) :
  Ignore cfg !! repo = None → isIgnored cfg repo filePath = false.
Proof. intros H. unfold isIgnored. by rewrite H. Qed.

(** [parseIgnorePaths] starts from an empty map: whatever exclusions the
    configuration held before, after parsing a repository that is named by
    no well-formed entry (the text before the first colon) excludes no
    path. *)
Theorem parseIgnorePaths_unnamed_repository_excludes_nothing
    (ignore : list string) (repo : string) (cfg : Config) (w : World) :
  (∀ i rest, i ∈ ignore → strings_SplitN i colon 2 ≠ [repo; rest]) →
  ∀ filePath : string, isIgnored (parseIgnorePaths ignore cfg w).1 repo filePath = false.
Proof. intros H filePath. by apply isIgnored_no_entry, parse_unnamed_lookup. Qed.

Lemma parseIgnorePaths_unnamed_repository_excludes_nothing_witness :
  isIgnored cfg_readme_excluded "owner/project" "README.md" = true
  ∧ isIgnored (parseIgnorePaths ["x/y:README.md"] cfg_readme_excluded fresh).1
      "owner/project" "README.md" = false.
Proof.
  split; [reflexivity|].
  apply (parseIgnorePaths_unnamed_repository_excludes_nothing
           ["x/y:README.md"] "owner/project" cfg_readme_excluded fresh).
  intros i rest Hi. apply list_elem_of_singleton in Hi. subst i. discriminate.
Defined.

Lemma cut_https (rest : string) : cut ("https:" +:+ rest) colon = Some ("https", rest).
Proof. reflexivity. Qed.

(** The repository of an ignore entry is the text before its first colon,
    so an entry that names its repository by URL
    ([https://github.com/owner/project:paths]) is filed under the key
    [https]: the path list of the last such entry is stored there
    (beginning with the rest of the URL), and no repository other than one
    called [https] gets an exclusion from entries of this form. *)
Theorem ignore_entries_by_url_exclude_nothing
    (ignore : list string) (r : string) (cfg : Config) (w : World) :
  (∀ i, i ∈ ignore → ∃ rest, i = "https:" +:+ rest) →
  r ≠ "https" →
  (∀ filePath : string, isIgnored (parseIgnorePaths ignore cfg w).1 r filePath = false)
  ∧ (∀ rest, last ignore = Some ("https:" +:+ rest) →
       Ignore (parseIgnorePaths ignore cfg w).1 !! "https" = Some (strings_Split rest comma)).
Proof.
  intros Hurl Hr. split.
  - intros filePath. apply isIgnored_no_entry, parse_unnamed_lookup.
    intros i rest Hi. destruct (Hurl i Hi) as (rest' & ->).
    rewrite SplitN_2, cut_https. congruence.
  - intros rest Hlast. apply last_Some in Hlast as (init & ->).
    unfold parseIgnorePaths.
    rewrite for_range_app, for_range_singleton, parseIgnorePath_lookup, cut_https.
    by rewrite decide_True.
Qed.

Lemma ignore_entries_by_url_exclude_nothing_witness :
  isIgnored (parseIgnorePaths ["https://github.com/owner/project:README.md"] cfg_demo fresh).1
    (repo_name "https://github.com/owner/project") "README.md" = false.
Proof.
  apply (ignore_entries_by_url_exclude_nothing
           ["https://github.com/owner/project:README.md"] "owner/project" cfg_demo fresh).
  - intros i Hi. apply list_elem_of_singleton in Hi. subst i.
    by exists "//github.com/owner/project:README.md".
  - discriminate.
Defined.

(** * What writing a file does to the file system *)

Lemma adds_dirs_refl (w : World) : adds_dirs w w.
Proof. intros loc. by left. Qed.

Lemma adds_dirs_trans (w1 w2 w3 : World) :
  adds_dirs w1 w2 → adds_dirs w2 w3 → adds_dirs w1 w3.
Proof.
  intros H12 H23 loc. destruct (H12 loc) as [H|[H H']], (H23 loc) as [G|[G G']].
  - left. congruence.
  - right. split; congruence.
  - right. split; congruence.
  - congruence.
Qed.

Lemma adds_dirs_logged (w w' : World) (evs : list Event) :
  adds_dirs w w' → adds_dirs w (logged w' evs).
Proof. done. Qed.

Lemma adds_dirs_kept (w w' : World) (loc : Loc) (n : Node) :
  adds_dirs w w' → nodes w !! loc = Some n → nodes w' !! loc = Some n.
Proof. intros H Hn. destruct (H loc) as [->|[? _]]; congruence. Qed.

Section Writing.
Context (E : Env).

Lemma os_Stat_None (w : World) (loc : Loc) : os_Stat w loc = None → nodes w !! loc = None.
Proof. unfold os_Stat. by destruct (is_start loc). Qed.

Lemma os_Mkdir_adds_dirs (loc : Loc) (w : World) : adds_dirs w (os_Mkdir E loc w).2.
Proof.
  unfold os_Mkdir. destruct (os_fault E OpMkdir loc); [apply adds_dirs_refl|].
  destruct (os_Stat w loc) as [[|?]|] eqn:Hs; [apply adds_dirs_refl..|].
  destruct (os_Stat w (parent loc)) as [[|?]|]; [|apply adds_dirs_refl..].
  intros loc'. simpl. destruct (decide (loc = loc')) as [<-|Hne].
  - right. rewrite lookup_insert_eq. split; [by apply os_Stat_None|done].
  - left. by rewrite lookup_insert_ne.
Qed.

Lemma mkdir_all_adds_dirs (rooted : bool) (rev_elems : list string) (w : World) :
  adds_dirs w (mkdir_all E rooted rev_elems w).2.
Proof.
  revert w. induction rev_elems as [|e above IH]; intros w; simpl.
  - destruct (os_Stat w (rooted, [])) as [[|?]|]; apply adds_dirs_refl.
  - destruct (os_Stat w _) as [[|?]|]; [apply adds_dirs_refl..|].
    specialize (IH w). destruct (mkdir_all E rooted above w) as [[|] w']; [|done].
    eapply adds_dirs_trans; [exact IH|apply os_Mkdir_adds_dirs].
Qed.

Lemma os_MkdirAll_adds_dirs (path : string) (w : World) : adds_dirs w (os_MkdirAll E path w).2.
Proof.
  unfold os_MkdirAll. case_decide; [apply adds_dirs_refl|]. apply mkdir_all_adds_dirs.
Qed.

(** [os.Create] changes the named file at most. *)
Lemma os_Create_frame (name : string) (w : World) (loc : Loc) :
  loc ≠ resolve name → nodes (os_Create E name w).2 !! loc = nodes w !! loc.
Proof.
  intros Hne. unfold os_Create. case_decide; [done|].
  destruct (os_fault E OpCreate _); [done|].
  destruct (os_Stat w (resolve name)) as [[|?]|];
    destruct (os_Stat w (parent (resolve name))) as [[|?]|]; simpl;
    by rewrite ?lookup_insert_ne.
Qed.

Lemma os_Create_handle (name : string) (w : World) (f : Loc) :
  (os_Create E name w).1 = Some f → f = resolve name.
Proof.
  unfold os_Create. case_decide; [done|].
  destruct (os_fault E OpCreate _); [done|].
  destruct (os_Stat w (resolve name)) as [[|?]|];
    destruct (os_Stat w (parent (resolve name))) as [[|?]|]; simpl; congruence.
Qed.

Lemma file_Write_frame (f : Loc) (s : string) (w : World) (loc : Loc) :
  loc ≠ f → nodes (file_Write E f s w).2 !! loc = nodes w !! loc.
Proof.
  intros Hne. unfold file_Write. destruct (os_fault E OpWrite f); [done|].
  simpl. by rewrite lookup_insert_ne.
Qed.

Lemma io_Copy_frame (f : Loc) (src : Body) (w : World) (loc : Loc) :
  loc ≠ f → nodes (io_Copy E f src w).2 !! loc = nodes w !! loc.
Proof.
  intros Hne. unfold io_Copy, bind. pose proof (file_Write_frame f (body_data src) w loc Hne).
  by destruct (file_Write E f (body_data src) w).
Qed.

End Writing.

Lemma frame_after_dirs (w w1 w' : World) (loc : Loc) :
  adds_dirs w w1 →
  nodes w' !! loc = nodes w1 !! loc →
  nodes w' !! loc = nodes w !! loc ∨ (nodes w !! loc = None ∧ nodes w' !! loc = Some Dir).
Proof. intros Hd ->. apply Hd. Qed.

(** [saveFile] ([part_000]) and [downloadFile] ([src/md-downloader.go])
    touch one file at most, their target [Output/base(repo)/filePath]:
    everywhere else they leave each node as it was, or add a directory
    where there was nothing.  No other file is created, changed or removed,
    and no directory is removed. *)
Theorem writing_touches_only_the_target
    (E : Env) (cfg : Config) (repo filePath content downloadURL : string)
    (w : World) (loc : Loc) :
  loc ≠ resolve (target_path cfg repo filePath) →
  (nodes (Main.saveFile E cfg repo filePath content w).2 !! loc = nodes w !! loc
   ∨ (nodes w !! loc = None
      ∧ nodes (Main.saveFile E cfg repo filePath content w).2 !! loc = Some Dir))
  ∧ (nodes (MdDownloader.downloadFile E cfg repo filePath downloadURL w).2 !! loc
       = nodes w !! loc
     ∨ (nodes w !! loc = None
        ∧ nodes (MdDownloader.downloadFile E cfg repo filePath downloadURL w).2 !! loc
          = Some Dir)).
Proof.
  intros Hne. unfold target_path in Hne.
  pose proof (os_MkdirAll_adds_dirs E (filepath_Join [Output cfg; filepath_Base repo]) w)
    as Hdirs.
  split.
  - unfold Main.saveFile, bind.
    destruct (os_MkdirAll E _ w) as [[|] w1]; simpl in *; [|by apply Hdirs].
    pose proof (os_Create_frame E _ w1 loc Hne) as Hc.
    pose proof (os_Create_handle E (filepath_Join
      [filepath_Join [Output cfg; filepath_Base repo]; filePath]) w1) as Hf.
    destruct (os_Create E _ w1) as [[f|] w2]; simpl in *.
    + rewrite (Hf f eq_refl).
      pose proof (file_Write_frame E _ content w2 loc Hne) as Hw.
      destruct (file_Write E _ content w2) as [[|] w3]; simpl in *;
        apply (frame_after_dirs w w1); [done|congruence|done|congruence].
    + by apply (frame_after_dirs w w1).
  - unfold MdDownloader.downloadFile, bind.
    destruct (os_MkdirAll E _ w) as [[|] w1]; simpl in *; [|by apply Hdirs].
    destruct (http_Do E _) as [body|]; simpl; [|by apply Hdirs].
    pose proof (os_Create_frame E (filepath_Join
      [filepath_Join [Output cfg; filepath_Base repo]; filePath])
      (logged w1 [Sent {| req_url := downloadURL; req_authorization := None |}]) loc Hne) as Hc.
    pose proof (os_Create_handle E (filepath_Join
      [filepath_Join [Output cfg; filepath_Base repo]; filePath])
      (logged w1 [Sent {| req_url := downloadURL; req_authorization := None |}])) as Hf.
    unfold logged in *. simpl in *.
    destruct (os_Create E _ _) as [[f|] w2]; simpl in *.
    + rewrite (Hf f eq_refl).
      pose proof (io_Copy_frame E _ body w2 loc Hne) as Hw.
      destruct (io_Copy E _ body w2) as [[|] w3]; simpl in *;
        apply (frame_after_dirs w w1); [done|congruence|done|congruence].
    + by apply (frame_after_dirs w w1).
Qed.

Lemma writing_touches_only_the_target_witness :
  nodes (Main.saveFile offline cfg_demo "owner/project" "README.md" "# Project" seeded).2
    !! resolve "history.json"
  = nodes seeded !! resolve "history.json"
  ∨ (nodes seeded !! resolve "history.json" = None
     ∧ nodes (Main.saveFile offline cfg_demo "owner/project" "README.md" "# Project" seeded).2
         !! resolve "history.json" = Some Dir).
Proof.
  apply (writing_touches_only_the_target offline cfg_demo "owner/project" "README.md"
           "# Project" "" seeded (resolve "history.json")).
  by vm_compute.
Defined.

Lemma Main_saveFile_writes_witness :
  nodes (Main.saveFile offline cfg_demo "owner/project" "README.md" "# Project" fresh).2
    !! resolve "docs/project/README.md"
  = Some (File "# Project").
Proof.
  rewrite (Main_saveFile_writes offline cfg_demo "owner/project" "README.md" "# Project" fresh
             (os_MkdirAll offline "docs/project" fresh).2).
  - reflexivity.
  - reflexivity.
  - discriminate.
  - reflexivity.
  - reflexivity.
  - by vm_compute.
  - reflexivity.
Defined.

(** [downloadFile] asks for the file only once the output directory is
    there, and creates the local file only once the request has succeeded.
    So when the directory cannot be made nothing is sent, and when the
    directory cannot be made or the request fails, every node of the file
    system is kept as it was (a local copy from an earlier run included);
    at most directories are added. *)
Theorem downloadFile_failure_keeps_local_copy
    (E : Env) (cfg : Config) (repo filePath downloadURL : string) (w : World) :
  (os_MkdirAll E (filepath_Join [Output cfg; filepath_Base repo]) w).1 = false
  ∨ http_Do E {| req_url := downloadURL; req_authorization := None |} = None →
  adds_dirs w (MdDownloader.downloadFile E cfg repo filePath downloadURL w).2
  ∧ ((os_MkdirAll E (filepath_Join [Output cfg; filepath_Base repo]) w).1 = false →
     requests (events_since w (MdDownloader.downloadFile E cfg repo filePath downloadURL w).2)
       = []).
Proof.
  intros Hfail. unfold MdDownloader.downloadFile, bind.
  pose proof (os_MkdirAll_adds_dirs E (filepath_Join [Output cfg; filepath_Base repo]) w)
    as Hdirs.
  pose proof (os_MkdirAll_trace E (filepath_Join [Output cfg; filepath_Base repo]) w)
    as Htrace.
  destruct (os_MkdirAll E _ w) as [[|] w1]; simpl in *.
  - destruct Hfail as [?| ->]; [done|]. simpl. split; [done|]. by intros.
  - split; [done|]. intros _. unfold events_since. simpl.
    by rewrite Htrace, drop_app_length.
Qed.

Lemma downloadFile_failure_keeps_local_copy_witness :
  adds_dirs
    stale_copy
    (MdDownloader.downloadFile online cfg_demo "owner/project" "guide.md"
       "https://raw.githubusercontent.com/owner/project/master/guide.md"
       stale_copy).2.
Proof.
  apply (downloadFile_failure_keeps_local_copy online cfg_demo "owner/project" "guide.md").
  right. reflexivity.
Defined.

(** When [docs/project] can be made, the request succeeds and the directory
    that is to hold the file exists, [downloadFile] leaves in the file at
    [Output/base(repo)/filePath] exactly what the response body delivered,
    whatever the file held before.  It reports success when the body ended
    normally and a failure to save when the body broke off; the delivered
    part stays in the file either way. *)
Theorem downloadFile_writes_the_body
    (E : Env) (cfg : Config) (repo filePath downloadURL : string) (w w1 : World) (body : Body) :
  os_MkdirAll E (filepath_Join [Output cfg; filepath_Base repo]) w = (true, w1) →
  http_Do E {| req_url := downloadURL; req_authorization := None |} = Some body →
  target_path cfg repo filePath ≠ EmptyString →
  os_fault E OpCreate (resolve (target_path cfg repo filePath)) = false →
  os_fault E OpWrite (resolve (target_path cfg repo filePath)) = false →
  os_Stat w1 (resolve (target_path cfg repo filePath)) ≠ Some Dir →
  os_Stat w1 (parent (resolve (target_path cfg repo filePath))) = Some Dir →
  MdDownloader.downloadFile E cfg repo filePath downloadURL w
  = (tt, logged (set_node (resolve (target_path cfg repo filePath)) (File (body_data body)) w1)
           [Sent {| req_url := downloadURL; req_authorization := None |};
            Printed (if body_broken body
                     then SaveFileFailed (target_path cfg repo filePath)
                     else FileDownloaded (target_path cfg repo filePath))]).
Proof.
  unfold target_path. intros Hmk Hget Hn Hfc Hfw Hs Hp.
  unfold MdDownloader.downloadFile, bind. rewrite Hmk. cbn [negb].
  rewrite http_send_logged, Hget.
  rewrite os_Create_succeeds by done.
  unfold io_Copy, bind, file_Write. rewrite Hfw. unfold ret. cbn [andb].
  destruct w1 as [n t]. destruct (body_broken body); unfold print, emit, logged, set_node;
    simpl; by rewrite insert_insert_eq, <- app_assoc.
Qed.

Lemma downloadFile_writes_the_body_witness :
  nodes (MdDownloader.downloadFile online cfg_demo "owner/project" "README.md"
           "https://raw.githubusercontent.com/owner/project/master/README.md"
           stale_copy).2
    !! resolve "docs/project/README.md"
  = Some (File "# Project").
Proof.
  rewrite (downloadFile_writes_the_body online cfg_demo "owner/project" "README.md"
             "https://raw.githubusercontent.com/owner/project/master/README.md"
             stale_copy
             (os_MkdirAll online "docs/project"
                stale_copy).2
             (file_body "# Project")).
  - reflexivity.
  - reflexivity.
  - reflexivity.
  - discriminate.
  - reflexivity.
  - reflexivity.
  - by vm_compute.
  - reflexivity.
Defined.

(** * The history file, written and read back *)

Lemma Main_loadHistory_reads (E : Env) (cfg : Config) (w : World) (content : string)
    (h : History) :
  HistoryFile cfg ≠ EmptyString →
  os_fault E OpOpen (resolve (HistoryFile cfg)) = false →
  os_Stat w (resolve (HistoryFile cfg)) = Some (File content) →
  json_Decode (unmarshal_History E) (file_body content) empty_History = (h, false) →
  Main.loadHistory E cfg w = (h, w).
Proof.
  intros Hn Hf Hs Hd. unfold Main.loadHistory, bind, os_Open.
  rewrite decide_False, Hf, Hs by done.
  fold (file_body content). fold empty_History. by rewrite Hd.
Qed.

(** Round trip of the history file. When [saveHistory] can create and write
    the file, and the file can be opened again and the decoder reads the
    encoding of the record back, [loadHistory] (of either revision) run
    after [saveHistory] returns the very record that was saved, silently and
    without changing anything. *)
Theorem saved_history_loads_back (E : Env) (cfg : Config) (h : History) (w : World) :
  (os_Create E (HistoryFile cfg) w).1 ≠ None →
  os_fault E OpWrite (resolve (HistoryFile cfg)) = false →
  os_fault E OpOpen (resolve (HistoryFile cfg)) = false →
  json_Decode (unmarshal_History E) (file_body (marshal_History E h)) empty_History
    = (h, false) →
  MdDownloader.loadHistory E cfg (saveHistory E cfg h w).2 = (h, (saveHistory E cfg h w).2)
  ∧ Main.loadHistory E cfg (saveHistory E cfg h w).2 = (h, (saveHistory E cfg h w).2).
Proof.
  intros Hc Hw Ho Hd.
  rewrite saveHistory_writes_record by done. simpl.
  destruct (os_Create E (HistoryFile cfg) w) as [[f|] wc] eqn:Hcr; [|done].
  destruct (os_Create_Some _ _ _ _ _ Hcr) as (Hname & _ & Hstart & _).
  assert (Hstat : os_Stat (set_node (resolve (HistoryFile cfg)) (File (marshal_History E h))
                             (set_node (resolve (HistoryFile cfg)) (File EmptyString) w))
                    (resolve (HistoryFile cfg))
                  = Some (File (marshal_History E h))).
  { unfold os_Stat. rewrite Hstart. simpl. by rewrite lookup_insert_eq. }
  split.
  - by apply (MdDownloader_loadHistory_reads E cfg _ (marshal_History E h)).
  - by apply (Main_loadHistory_reads E cfg _ (marshal_History E h)).
Qed.

Lemma saved_history_loads_back_witness :
  (Main.loadHistory online cfg_demo
     (saveHistory online cfg_demo {| Files := {["README.md" := "3f2a"; "guide.md" := "ERROR"]} |}
        stale_copy).2).1
  = {| Files := {["README.md" := "3f2a"; "guide.md" := "ERROR"]} |}.
Proof.
  rewrite (proj2 (saved_history_loads_back online cfg_demo
                    {| Files := {["README.md" := "3f2a"; "guide.md" := "ERROR"]} |} stale_copy
                    ltac:(discriminate) eq_refl eq_refl (toy_codec_roundtrip _))).
  reflexivity.
Defined.

(** [saveHistory] touches no node of the file system other than the history
    file, and when it cannot create that file it changes nothing. *)
Theorem saveHistory_touches_only_the_history_file
    (E : Env) (cfg : Config) (h : History) (w : World) :
  (∀ loc, loc ≠ resolve (HistoryFile cfg) →
     nodes (saveHistory E cfg h w).2 !! loc = nodes w !! loc)
  ∧ ((os_Create E (HistoryFile cfg) w).1 = None → nodes (saveHistory E cfg h w).2 = nodes w).
Proof.
  destruct (saveHistory_cases E cfg h w) as [(Hc & ->)|[(Hc & Hw & ->)|(Hc & Hw & ->)]]; simpl.
  - done.
  - split; [|done]. intros loc Hne. by rewrite lookup_insert_ne.
  - split; [|done]. intros loc Hne. by rewrite !lookup_insert_ne.
Qed.

(** * The loop, seen from outside *)

(** A property of the record before, the record after and the events in
    between that holds for every loop body, is kept when nothing happens
    and composes, holds for the loop. *)
Lemma for_range_collect {A S : Type} (body : A → S → M S)
    (Q : S → S → list Event → Prop) (xs : list A) :
  (∀ s, Q s s []) →
  (∀ s1 s2 s3 e1 e2, Q s1 s2 e1 → Q s2 s3 e2 → Q s1 s3 (e1 ++ e2)) →
  (∀ x s w, x ∈ xs →
     ∃ evs, trace (body x s w).2 = trace w ++ evs ∧ Q s (body x s w).1 evs) →
  ∀ s w, ∃ evs, trace (for_range xs body s w).2 = trace w ++ evs
                ∧ Q s (for_range xs body s w).1 evs.
Proof.
  intros Hrefl Htrans. induction xs as [|x xs IH]; intros Hbody s w.
  - exists []. by rewrite app_nil_r.
  - simpl. unfold bind.
    destruct (Hbody x s w (list_elem_of_here _ _)) as (e1 & Ht1 & HQ1).
    destruct (body x s w) as [s1 w1]. simpl in *.
    destruct (IH (λ x' s' w' Hin, Hbody x' s' w' (list_elem_of_further _ _ _ Hin)) s1 w1)
      as (e2 & Ht2 & HQ2).
    exists (e1 ++ e2). rewrite Ht2, Ht1, app_assoc. split; [done|]. by eapply Htrans.
Qed.

Lemma events_since_app (w w' : World) (evs : list Event) :
  trace w' = trace w ++ evs → events_since w w' = evs.
Proof. intros H. unfold events_since. by rewrite H, drop_app_length. Qed.



Section LoopShape.
Context (E : Env) (cfg : Config) (repo : string).

(** What [downloadFile] adds to the trace: messages, and at most its one
    request. *)
Lemma downloadFile_events (filePath downloadURL : string) (w : World) :
  ∃ evs, trace (MdDownloader.downloadFile E cfg repo filePath downloadURL w).2 = trace w ++ evs
         ∧ Forall no_verdict evs
         ∧ (requests evs = []
            ∨ requests evs = [{| req_url := downloadURL; req_authorization := None |}]).
Proof.
  unfold MdDownloader.downloadFile, bind.
  pose proof (os_MkdirAll_trace E (filepath_Join [Output cfg; filepath_Base repo]) w) as Hm.
  destruct (os_MkdirAll E _ w) as [[|] w1]; simpl in *.
  - destruct (http_Do E _) as [body|]; simpl.
    + match goal with |- context [os_Create E ?name ?w0] =>
        pose proof (os_Create_trace E name w0) as Hc;
        destruct (os_Create E name w0) as [[f|] w2]
      end; simpl in *.
      * pose proof (io_Copy_trace E f body w2) as Hi.
        destruct (io_Copy E f body w2) as [[|] w3]; simpl in *;
          eexists; (split; [by rewrite Hi, Hc, Hm, <- app_assoc|]);
          (split; [by repeat constructor|by right]).
      * eexists. split; [by rewrite Hc, Hm, <- app_assoc|].
        split; [by repeat constructor|by right].
    + eexists. split; [by rewrite Hm, <- app_assoc|].
      split; [by repeat constructor|by right].
  - eexists. split; [by rewrite Hm|]. split; [by repeat constructor|by left].
Qed.

(** The loop body of [src/md-downloader.go]: either it leaves the record
    alone, sends nothing and announces no download, or it announces the
    download of a selectable entry, records its identifier and sends at
    most the request for its raw content. *)
Lemma MdDownloader_processItem_shape (item : TreeItem) (h : History) (w : World) :
  (∃ evs, MdDownloader.processItem E cfg repo item h w = (h, logged w evs)
          ∧ requests evs = [] ∧ fetched evs = [])
  ∨ (selectable cfg repo item
     ∧ (MdDownloader.processItem E cfg repo item h w).1 = set_File h (Path item) (Sha item)
     ∧ ∃ rest, trace (MdDownloader.processItem E cfg repo item h w).2
                 = trace w ++ Printed (DownloadingFile (Path item)) :: rest
               ∧ Forall no_verdict rest
               ∧ (requests rest = [] ∨ requests rest = [raw_request repo item])).
Proof.
  unfold MdDownloader.processItem, bind, ret.
  destruct (is_md_blob item) eqn:Hc; [|left; exists []; by rewrite logged_nil].
  destruct (MdDownloader.shouldDownload _ _ _); [|left; by eexists].
  destruct (isIgnored cfg repo (Path item)) eqn:Hi; [left; by eexists|].
  right. split; [done|]. rewrite print_logged.
  destruct (downloadFile_events (Path item)
              ("https://raw.githubusercontent.com/" +:+ repo +:+ "/master/" +:+ Path item)
              (logged w [Printed (DownloadingFile (Path item))])) as (rest & Ht & Hv & Hr).
  destruct (MdDownloader.downloadFile _ _ _ _ _ _) as [[] w']. simpl in *.
  split; [done|]. exists rest. by rewrite Ht, <- app_assoc.
Qed.

(** The loop body of [part_000]: either it leaves the record alone, sends
    nothing and announces no download, or it announces the download of a
    selectable entry, sends the request for its blob, and records the
    identifier of the entry or ["ERROR"]. *)
Lemma Main_processItem_shape (item : TreeItem) (h : History) (w : World) :
  (∃ evs, Main.processItem E cfg repo item h w = (h, logged w evs)
          ∧ requests evs = [] ∧ fetched evs = [])
  ∨ (selectable cfg repo item
     ∧ ((Main.processItem E cfg repo item h w).1 = set_File h (Path item) (Sha item)
        ∨ (Main.processItem E cfg repo item h w).1 = set_File h (Path item) "ERROR")
     ∧ ∃ rest, trace (Main.processItem E cfg repo item h w).2
                 = trace w ++ Printed (DownloadingFile (Path item))
                              :: Sent (blob_request cfg item) :: rest
               ∧ Forall is_report rest).
Proof.
  unfold Main.processItem, bind, ret.
  destruct (is_md_blob item) eqn:Hc; [|left; exists []; by rewrite logged_nil].
  destruct (Main.shouldDownload _ _ _); [|left; by eexists].
  destruct (isIgnored cfg repo (Path item)) eqn:Hi; [left; by eexists|].
  right. split; [done|]. rewrite print_logged, http_send_logged. fold (blob_request cfg item).
  destruct (http_Do E _) as [body|]; simpl.
  - destruct (json_Decode _ body _) as [content [|]]; simpl.
    + split; [by right|]. eexists. split; [by rewrite <- !app_assoc|]. by repeat constructor.
    + destruct (base64_DecodeString E content) as [decoded|]; simpl.
      * destruct (saveFile_emits E cfg repo (Path item) decoded
                    (logged (logged w [Printed (DownloadingFile (Path item))])
                       [Sent (blob_request cfg item)])) as (rest & Ht & Hr).
        destruct (Main.saveFile _ _ _ _ _ _) as [[] w']. simpl in *.
        split; [by left|]. exists rest. by rewrite Ht, <- !app_assoc.
      * split; [by right|]. eexists. split; [by rewrite <- !app_assoc|].
        by repeat constructor.
  - split; [by right|]. eexists. split; [by rewrite <- !app_assoc|]. by repeat constructor.
Qed.

End LoopShape.

Lemma fetch_announced (p : string) (evs : list Event) :
  Printed (DownloadingFile p) ∈ evs → (p, FETCH) ∈ verdicts evs.
Proof.
  intros H. unfold verdicts. apply list_elem_of_omap.
  by exists (Printed (DownloadingFile p)).
Qed.

(** The loop changes the record only where it announces a download: an
    entry that differs after the loop (created or modified) belongs to a
    path the loop announced as being downloaded.  Paths that are skipped,
    ignored, or no candidates keep their entry, in both revisions. *)
Theorem record_changes_only_where_fetched
    (E : Env) (cfg : Config) (repo : string) (contents : list TreeItem)
    (h : History) (w : World) (p : string) :
  (Files (for_range contents (MdDownloader.processItem E cfg repo) h w).1 !! p ≠ Files h !! p →
   (p, FETCH) ∈ verdicts
     (events_since w (for_range contents (MdDownloader.processItem E cfg repo) h w).2))
  ∧ (Files (for_range contents (Main.processItem E cfg repo) h w).1 !! p ≠ Files h !! p →
     (p, FETCH) ∈ verdicts
       (events_since w (for_range contents (Main.processItem E cfg repo) h w).2)).
Proof.
  set (Q := λ (h1 h2 : History) (evs : list Event),
              Files h2 !! p ≠ Files h1 !! p → (p, FETCH) ∈ verdicts evs).
  assert (Hrefl : ∀ s, Q s s []) by (by intros s ?).
  assert (Htrans : ∀ s1 s2 s3 e1 e2, Q s1 s2 e1 → Q s2 s3 e2 → Q s1 s3 (e1 ++ e2)).
  { intros s1 s2 s3 e1 e2 H1 H2 Hne. rewrite verdicts_app, elem_of_app.
    destruct (decide (Files s2 !! p = Files s1 !! p)) as [Heq|Hne1].
    - right. apply H2. congruence.
    - left. by apply H1. }
  split.
  - destruct (for_range_collect (MdDownloader.processItem E cfg repo) Q contents Hrefl Htrans)
      with (s := h) (w := w) as (evs & Ht & HQ); [|by rewrite (events_since_app _ _ _ Ht)].
    intros item s w0 _.
    destruct (MdDownloader_processItem_shape E cfg repo item s w0)
      as [(evs & -> & _)|(_ & Hrec & rest & Ht & _)].
    + exists evs. split; [done|]. by intros ?.
    + eexists. split; [exact Ht|]. rewrite Hrec. intros Hne.
      destruct (decide (Path item = p)) as [<-|Hp].
      * apply fetch_announced. by left.
      * simpl in Hne. by rewrite lookup_insert_ne in Hne.
  - destruct (for_range_collect (Main.processItem E cfg repo) Q contents Hrefl Htrans)
      with (s := h) (w := w) as (evs & Ht & HQ); [|by rewrite (events_since_app _ _ _ Ht)].
    intros item s w0 _.
    destruct (Main_processItem_shape E cfg repo item s w0)
      as [(evs & -> & _)|(_ & Hrec & rest & Ht & _)].
    + exists evs. split; [done|]. by intros ?.
    + eexists. split; [exact Ht|]. intros Hne.
      destruct (decide (Path item = p)) as [<-|Hp].
      * apply fetch_announced. by left.
      * destruct Hrec as [Hrec|Hrec]; rewrite Hrec in Hne; simpl in Hne;
          by rewrite lookup_insert_ne in Hne.
Qed.


Section Recorded.
Context (E : Env) (cfg : Config) (repo : string).

(** In [part_000], an entry holding the identifier the tree gives for its
    path, or ["ERROR"], still holds one of the two after the loop body. *)
Lemma Main_processItem_keeps_recorded (item : TreeItem) (h : History) (w : World)
    (p s : string) :
  Files h !! p = Some s ∨ Files h !! p = Some "ERROR" →
  (Path item = p → Sha item = s) →
  Files (Main.processItem E cfg repo item h w).1 !! p = Some s
  ∨ Files (Main.processItem E cfg repo item h w).1 !! p = Some "ERROR".
Proof.
  intros Hp Hsame.
  destruct (Main_processItem_record E cfg repo item h w) as [->|[->| ->]]; [done|..]; simpl;
    (destruct (decide (Path item = p)) as [Heq|Hne];
      [rewrite <- Heq, lookup_insert_eq; rewrite <- ?(Hsame Heq); auto
      |by rewrite lookup_insert_ne]).
Qed.

(** In [part_000], after the loop body a selectable entry is recorded with
    its identifier or with ["ERROR"]. *)
Lemma Main_processItem_records (item : TreeItem) (h : History) (w : World) :
  selectable cfg repo item →
  Files (Main.processItem E cfg repo item h w).1 !! Path item = Some (Sha item)
  ∨ Files (Main.processItem E cfg repo item h w).1 !! Path item = Some "ERROR".
Proof.
  intros [Hc Hi]. unfold Main.processItem, bind, ret. rewrite Hc, Hi.
  destruct (Main.shouldDownload _ _ _) eqn:Hs.
  - rewrite print_logged, http_send_logged.
    destruct (http_Do E _) as [body|]; simpl; [|right; by rewrite lookup_insert_eq].
    destruct (json_Decode _ body _) as [content [|]]; simpl;
      [right; by rewrite lookup_insert_eq|].
    destruct (base64_DecodeString E content) as [decoded|]; simpl;
      [|right; by rewrite lookup_insert_eq].
    destruct (Main.saveFile _ _ _ _ _ _). simpl. left. by rewrite lookup_insert_eq.
  - simpl. left. rewrite Main_shouldDownload_spec in Hs.
    destruct (Files h !! Path item) as [lastSha|]; [|done].
    apply bool_decide_eq_false in Hs.
    destruct (decide (lastSha = Sha item)) as [->|Hne]; [done|].
    exfalso. apply Hs. by right.
Qed.

Lemma Main_first_pass_records (done rest : list TreeItem) (h : History) (w : World) :
  one_sha_per_path (done ++ rest) →
  (∀ i, i ∈ done → selectable cfg repo i →
        Files h !! Path i = Some (Sha i) ∨ Files h !! Path i = Some "ERROR") →
  ∀ i, i ∈ done ++ rest → selectable cfg repo i →
       Files (for_range rest (Main.processItem E cfg repo) h w).1 !! Path i = Some (Sha i)
       ∨ Files (for_range rest (Main.processItem E cfg repo) h w).1 !! Path i = Some "ERROR".
Proof.
  revert done h w. induction rest as [|item rest IH]; intros done h w Hone Hdone.
  - by rewrite app_nil_r.
  - simpl. unfold bind.
    destruct (Main.processItem E cfg repo item h w) as [h' w'] eqn:Hitem.
    replace (done ++ item :: rest) with ((done ++ [item]) ++ rest) in *
      by by rewrite <- app_assoc.
    apply IH; [done|].
    change h' with (h', w').1. rewrite <- Hitem.
    intros i Hin Hsel. apply elem_of_app in Hin as [Hin|Hin].
    + apply Main_processItem_keeps_recorded; [by apply Hdone|].
      intros Heq. apply Hone; [| |done]; rewrite !elem_of_app, list_elem_of_singleton; auto.
    + apply list_elem_of_singleton in Hin as ->. by apply Main_processItem_records.
Qed.

End Recorded.

(** After the loop over a tree that gives each path one identifier, every
    selectable entry of the tree is in a record that holds a map.  In
    [src/md-downloader.go] it is recorded with its current identifier,
    whether or not its download succeeded; in [part_000] it is recorded
    with its current identifier or with ["ERROR"]. *)
Lemma loop_records_selected
    (E : Env) (cfg : Config) (repo : string) (contents : list TreeItem)
    (h : History) (w : World) (item : TreeItem) :
  one_sha_per_path contents →
  item ∈ contents →
  selectable cfg repo item →
  Files (for_range contents (MdDownloader.processItem E cfg repo) h w).1 !! Path item
    = Some (Sha item)
  ∧ (Files (for_range contents (Main.processItem E cfg repo) h w).1 !! Path item
       = Some (Sha item)
     ∨ Files (for_range contents (Main.processItem E cfg repo) h w).1 !! Path item
       = Some "ERROR").
Proof.
  intros Hone Hin [Hc Hi]. split.
  - apply (first_pass_settles E cfg repo [] contents h w Hone); [|done..].
    by intros i ?%elem_of_nil.
  - apply (Main_first_pass_records E cfg repo [] contents h w Hone); [|done..].
    by intros i ?%elem_of_nil.
Qed.

(** * The whole command *)

(** [parseIgnorePaths] changes nothing of the configuration but the
    exclusions, touches no file, and only reports. *)
Lemma parse_entries_reports (entries : list string) (cfg : Config) (w : World) :
  ∃ evs, (for_range entries parseIgnorePath cfg w).2 = logged w evs
         ∧ Forall is_report evs
         ∧ AccessToken (for_range entries parseIgnorePath cfg w).1 = AccessToken cfg
         ∧ Repos (for_range entries parseIgnorePath cfg w).1 = Repos cfg.
Proof.
  revert cfg w. induction entries as [|i entries IH]; intros cfg w.
  - exists []. by rewrite logged_nil.
  - simpl. unfold bind.
    assert (Hi : ∃ evs, (parseIgnorePath i cfg w).2 = logged w evs
                        ∧ Forall is_report evs
                        ∧ AccessToken (parseIgnorePath i cfg w).1 = AccessToken cfg
                        ∧ Repos (parseIgnorePath i cfg w).1 = Repos cfg).
    { unfold parseIgnorePath. destruct (strings_SplitN i colon 2) as [|? [|? ?]].
      - eexists. split; [reflexivity|]. by repeat constructor.
      - eexists. split; [reflexivity|]. by repeat constructor.
      - exists []. by rewrite logged_nil. }
    destruct Hi as (e1 & Hw1 & Hr1 & Ha1 & Hp1).
    destruct (parseIgnorePath i cfg w) as [c1 w1]. simpl in *. subst w1.
    destruct (IH c1 (logged w e1)) as (e2 & Hw2 & Hr2 & Ha2 & Hp2).
    exists (e1 ++ e2). rewrite Hw2, logged_logged, Ha2, Hp2.
    split; [done|]. split; [by apply Forall_app|done].
Qed.

Lemma tree_request_token (cfg cfg' : Config) (repo : string) :
  AccessToken cfg' = AccessToken cfg → tree_request cfg' repo = tree_request cfg repo.
Proof. intros H. unfold tree_request. by rewrite H. Qed.

Lemma tree_listing_token (E : Env) (cfg cfg' : Config) (repo : string) :
  AccessToken cfg' = AccessToken cfg → tree_listing E cfg' repo = tree_listing E cfg repo.
Proof. intros H. unfold tree_listing. by rewrite (tree_request_token _ _ _ H). Qed.

(** The loop of [part_000]'s command over the repositories. *)
Lemma Main_repositories_loop (E : Env) (cfg : Config) (repos : list string) (w : World) :
  ∃ evs, for_range repos (λ repo _, Main.listMdFiles E cfg repo) tt w = (tt, logged w evs)
         ∧ requests evs = (λ repo, tree_request cfg (repo_name repo)) <$> repos
         ∧ verdicts evs = [].
Proof.
  revert w. induction repos as [|repo repos IH]; intros w.
  - exists []. by rewrite logged_nil.
  - simpl. unfold bind.
    destruct (Main_listMdFiles_stops E cfg repo w) as (m & Hm & ->).
    destruct (IH (logged w [Sent (tree_request cfg (repo_name repo)); Printed m]))
      as (evs & -> & Hr & Hv).
    eexists. rewrite logged_logged. split; [done|].
    simpl. in_cases Hm; simpl; by rewrite Hr, Hv.
Qed.

(** A run of [listMdFiles] ([src/md-downloader.go]) begins with its tree
    request. *)
Lemma MdDownloader_listMdFiles_begins (E : Env) (cfg : Config) (repo : string) (w : World) :
  ∃ rest, trace (MdDownloader.listMdFiles E cfg repo w).2
          = trace w ++ Sent (tree_request cfg (repo_name repo)) :: rest.
Proof.
  destruct (tree_listing E cfg repo) as [contents|] eqn:Htree.
  - rewrite (MdDownloader_listMdFiles_tree E cfg repo w contents Htree). simpl.
    destruct (presave_trace E cfg (repo_name repo) contents
                (logged w [Sent (tree_request cfg (repo_name repo))])) as (pre & Hpre).
    destruct (for_range contents _ _ _) as [h1 wl]. simpl in *.
    destruct (saveHistory_events E cfg h1 wl) as (evs & Ht & _).
    exists (pre ++ evs). rewrite Ht, Hpre. simpl. by rewrite <- !app_assoc.
  - destruct (MdDownloader_listMdFiles_no_tree E cfg repo w Htree) as (m & _ & ->).
    by eexists.
Qed.

Lemma MdDownloader_repositories_loop (E : Env) (cfg : Config) (repos : list string)
    (w : World) :
  ∃ evs, trace (for_range repos (λ repo _, MdDownloader.listMdFiles E cfg repo) tt w).2
           = trace w ++ evs
         ∧ (λ repo, tree_request cfg (repo_name repo)) <$> repos `sublist_of` requests evs
         ∧ ((∀ repo, repo ∈ repos → tree_listing E cfg repo = None) →
            nodes (for_range repos (λ repo _, MdDownloader.listMdFiles E cfg repo) tt w).2
              = nodes w
            ∧ requests evs = (λ repo, tree_request cfg (repo_name repo)) <$> repos).
Proof.
  revert w. induction repos as [|repo repos IH]; intros w.
  - exists []. rewrite app_nil_r. split; [done|]. split; [constructor|done].
  - simpl. unfold bind.
    destruct (MdDownloader_listMdFiles_begins E cfg repo w) as (rest & Ht).
    pose proof (MdDownloader_listMdFiles_no_tree E cfg repo w) as Hfail.
    destruct (MdDownloader.listMdFiles E cfg repo w) as [[] w1]. simpl in *.
    destruct (IH w1) as (evs & Ht' & Hsub & Hnone).
    exists ((Sent (tree_request cfg (repo_name repo)) :: rest) ++ evs).
    split; [by rewrite Ht', Ht, <- app_assoc|]. split.
    + rewrite requests_app.
      change (requests (Sent ?r :: rest)) with (r :: requests rest).
      simpl. apply sublist_skip. by apply sublist_inserts_l.
    + intros Hall.
      destruct (Hfail (Hall repo (list_elem_of_here _ _))) as (m & Hm & [= ->]).
      destruct Hnone as [Hn Hr]; [intros; apply Hall; by right|].
      rewrite Hn. split; [done|].
      assert (rest = [Printed m]) as ->.
      { simpl in Ht. by apply app_inv_head in Ht as [= <-]. }
      rewrite requests_app, Hr. done.
Qed.

Lemma emits_for_range_in {A B : Type} (P : Event → Prop)
    (xs : list B) (body : B → A → M A) (s : A) :
  (∀ x s', x ∈ xs → emits P (body x s')) → emits P (for_range xs body s).
Proof.
  revert s. induction xs as [|x xs IH]; intros s Hbody; simpl.
  - apply emits_ret.
  - apply emits_bind; [apply Hbody; by left|]. intros s'. apply IH.
    intros x' s'' Hin. apply Hbody. by right.
Qed.

Lemma is_report_no_fetch (p : string) (e : Event) : is_report e → no_fetch_of p e.
Proof. intros He. apply is_report_no_verdict in He. unfold no_fetch_of, no_verdict in *. congruence. Qed.

(** A run of [listMdFiles] ([src/md-downloader.go]) announces no download
    of a path that is excluded for its repository. *)
Lemma MdDownloader_listMdFiles_no_fetch (E : Env) (cfg : Config) (repo p : string) :
  isIgnored cfg (repo_name repo) p = true →
  emits (no_fetch_of p) (MdDownloader.listMdFiles E cfg repo).
Proof.
  intros Hi. unfold MdDownloader.listMdFiles. fold (repo_name repo).
  apply emits_bind; [unfold http_send; repeat emits_step|]. intros resp.
  destruct resp as [body|]; [|by apply emits_print].
  destruct (json_Decode _ body []) as [contents [|]]; [by apply emits_print|].
  apply emits_bind.
  { eapply emits_weaken; [apply is_report_no_fetch|apply MdDownloader_loadHistory_emits]. }
  intros h0. apply emits_bind.
  - apply emits_for_range. intros item h.
    eapply emits_weaken; [|apply MdDownloader_processItem_emits].
    intros e He Hv. by apply (He p FETCH).
  - intros h1. eapply emits_weaken; [apply is_report_no_fetch|apply saveHistory_emits].
Qed.

(** Exclusion, end to end ([src/md-downloader.go]). A path that the parsed
    ignore entries exclude for every configured repository is never
    announced as downloaded in the whole run of the command, whatever the
    record, the trees and the network. *)
Theorem MdDownloader_Run_never_fetches_excluded
    (E : Env) (ignore : list string) (cfg : Config) (w : World) (p : string) :
  (∀ repo, repo ∈ Repos cfg →
     isIgnored (parseIgnorePaths ignore cfg w).1 (repo_name repo) p = true) →
  (p, FETCH) ∉ verdicts (events_since w (MdDownloader.Run E ignore cfg w).2).
Proof.
  intros Hex.
  assert (Hrun : emits (no_fetch_of p) (MdDownloader.Run E ignore cfg)).
  { unfold MdDownloader.Run. intros w0.
    (* the configuration does not depend on the world it is parsed in *)
    assert (Hcfg : (parseIgnorePaths ignore cfg w0).1 = (parseIgnorePaths ignore cfg w).1)
      by apply parse_config_any_world.
    unfold bind.
    destruct (parse_entries_reports ignore (set_Ignore cfg ∅) w0)
      as (e1 & Hw1 & Hr1 & _ & Hp).
    unfold parseIgnorePaths in *.
    destruct (for_range ignore parseIgnorePath (set_Ignore cfg ∅) w0) as [cfg' w1].
    simpl in *. subst w1.
    destruct (emits_for_range_in (no_fetch_of p) (Repos cfg')
                (λ repo _, MdDownloader.listMdFiles E cfg' repo) tt) with (w := logged w0 e1)
      as (e2 & Ht & HP).
    { intros repo _ Hin. apply MdDownloader_listMdFiles_no_fetch.
      rewrite Hcfg. apply Hex. by rewrite <- Hp. }
    exists (e1 ++ e2). rewrite Ht. simpl. rewrite app_assoc. split; [done|].
    apply Forall_app. split; [|done].
    eapply Forall_impl; [exact Hr1|]. apply is_report_no_fetch. }
  pose proof (emits_events _ _ w Hrun) as Hall.
  intros Hin. unfold verdicts in Hin. apply list_elem_of_omap in Hin as (e & He & Hv).
  rewrite Forall_forall in Hall. by apply (Hall e He).
Qed.

Lemma MdDownloader_Run_never_fetches_excluded_witness :
  ("README.md", FETCH) ∉ verdicts
    (events_since fresh
       (MdDownloader.Run online ["owner/project:README.md"] cfg_demo fresh).2).
Proof.
  apply (MdDownloader_Run_never_fetches_excluded online ["owner/project:README.md"]
           cfg_demo fresh "README.md").
  intros repo Hin. apply list_elem_of_singleton in Hin. subst repo. reflexivity.
Defined.

Lemma os_Create_logged (E : Env) (name : string) (w : World) (evs : list Event) :
  (os_Create E name (logged w evs)).1 = (os_Create E name w).1.
Proof.
  unfold os_Create. case_decide; [done|]. destruct (os_fault E OpCreate _); [done|].
  change (os_Stat (logged w evs)) with (os_Stat w).
  destruct (os_Stat w (resolve name)) as [[|?]|];
    by destruct (os_Stat w (parent (resolve name))) as [[|?]|].
Qed.

Lemma MdDownloader_loadHistory_logged (E : Env) (cfg : Config) (w : World) :
  ∃ evs, (MdDownloader.loadHistory E cfg w).2 = logged w evs.
Proof.
  unfold MdDownloader.loadHistory, bind, os_Open. case_decide.
  - exists []. by rewrite logged_nil.
  - destruct (os_fault E OpOpen _); [exists []; by rewrite logged_nil|].
    destruct (os_Stat w _) as [[|content]|]; [..|exists []; by rewrite logged_nil].
    + destruct (json_Decode _ _ _) as [h [|]]; [by eexists|exists []; by rewrite logged_nil].
    + destruct (json_Decode _ _ _) as [h [|]]; [by eexists|exists []; by rewrite logged_nil].
Qed.

(** A run of [listMdFiles] ([src/md-downloader.go]) that obtains a tree
    writes the history file back even when the tree lists no entry at all
    (as when the response is a JSON object without a tree).  What it writes
    is the encoding of the record [loadHistory] returned: a history file
    that could not be opened is thereby replaced by the encoding of the
    empty record. *)
Theorem empty_tree_rewrites_history (E : Env) (cfg : Config) (repo : string) (w : World) :
  tree_listing E cfg repo = Some [] →
  (os_Create E (HistoryFile cfg) w).1 ≠ None →
  os_fault E OpWrite (resolve (HistoryFile cfg)) = false →
  nodes (MdDownloader.listMdFiles E cfg repo w).2 !! resolve (HistoryFile cfg)
    = Some (File (marshal_History E
        (MdDownloader.loadHistory E cfg
           (logged w [Sent (tree_request cfg (repo_name repo))])).1))
  ∧ ((os_Open E (HistoryFile cfg) w).1 = None →
     nodes (MdDownloader.listMdFiles E cfg repo w).2 !! resolve (HistoryFile cfg)
       = Some (File (marshal_History E empty_History))).
Proof.
  intros Htree Hc Hw.
  rewrite (MdDownloader_listMdFiles_tree E cfg repo w [] Htree). simpl.
  destruct (MdDownloader_loadHistory_logged E cfg
              (logged w [Sent (tree_request cfg (repo_name repo))])) as (evs & Hl).
  assert (Hfile : nodes (saveHistory E cfg
      (MdDownloader.loadHistory E cfg (logged w [Sent (tree_request cfg (repo_name repo))])).1
      (MdDownloader.loadHistory E cfg (logged w [Sent (tree_request cfg (repo_name repo))])).2).2
      !! resolve (HistoryFile cfg)
    = Some (File (marshal_History E
        (MdDownloader.loadHistory E cfg
           (logged w [Sent (tree_request cfg (repo_name repo))])).1))).
  { apply saveHistory_file; [|done]. by rewrite Hl, logged_logged, os_Create_logged. }
  split; [done|]. intros Ho. rewrite Hfile. do 3 f_equal.
  unfold MdDownloader.loadHistory, bind.
  assert (Ho' : (os_Open E (HistoryFile cfg)
                   (logged w [Sent (tree_request cfg (repo_name repo))])).1 = None).
  { revert Ho. unfold os_Open. case_decide; [done|]. destruct (os_fault E OpOpen _); [done|].
    change (os_Stat (logged w ?e)) with (os_Stat w).
    by destruct (os_Stat w (resolve (HistoryFile cfg))) as [[|?]|]. }
  destruct (os_Open E (HistoryFile cfg)
              (logged w [Sent (tree_request cfg (repo_name repo))])) as [[f|] w'].
  - simpl in Ho'. discriminate.
  - reflexivity.
Qed.

Lemma empty_tree_rewrites_history_witness :
  nodes (MdDownloader.listMdFiles bare cfg_demo "owner/project" fresh).2 !! resolve "history.json"
  = Some (File (toy_marshal empty_History)).
Proof.
  apply (proj2 (empty_tree_rewrites_history bare cfg_demo "owner/project" fresh
                  eq_refl ltac:(discriminate) eq_refl)).
  reflexivity.
Defined.

(** * Runs that may panic *)

Lemma bindP_lift {A B : Type} (m : M A) (k : A → MP B) (w : World) :
  bindP (lift m) k w = k (m w).1 (m w).2.
Proof. unfold bindP, lift, bind, ret. by destruct (m w). Qed.

Lemma lift_run {A : Type} (m : M A) (w : World) : lift m w = (Returned (m w).1, (m w).2).
Proof. unfold lift, bind, ret. by destruct (m w). Qed.

(** A loop whose body never panics is the loop without panics. *)
Lemma for_rangeP_returns {A S T : Type} (wrap : T → S) (xs : list A)
    (body : A → S → MP S) (body0 : A → T → M T) :
  (∀ x t w, x ∈ xs →
     body x (wrap t) w = (Returned (wrap (body0 x t w).1), (body0 x t w).2)) →
  ∀ t w, for_rangeP xs body (wrap t) w
         = (Returned (wrap (for_range xs body0 t w).1), (for_range xs body0 t w).2).
Proof.
  induction xs as [|x xs IH]; intros Hbody t w; [done|].
  simpl. unfold bindP, bind. rewrite (Hbody x t w (list_elem_of_here _ _)).
  destruct (body0 x t w) as [t1 w1]. simpl.
  apply IH. intros x' t' w' Hin. apply Hbody. by right.
Qed.

(** The history file is saved alike when the record holds a map. *)
Lemma Go_saveHistory_map (E : Env) (G : GoRuntime) (cfg : Config) (h : History) :
  Go.saveHistory E G cfg (MapFiles h) = saveHistory E cfg h.
Proof. reflexivity. Qed.

Lemma http_request_built (E : Env) (G : GoRuntime) (r : Request) (w : World) :
  url_parses G (req_url r) = true →
  http_request E G r w = (Returned (http_Do E r), logged w [Sent r]).
Proof. intros H. unfold http_request. by rewrite H. Qed.

Lemma http_request_nil (E : Env) (G : GoRuntime) (r : Request) (w : World) :
  url_parses G (req_url r) = false → http_request E G r w = (Panicked, w).
Proof. intros H. unfold http_request. by rewrite H. Qed.

Lemma os_Open_logged (E : Env) (name : string) (w : World) (evs : list Event) :
  os_Open E name (logged w evs) = ((os_Open E name w).1, logged w evs).
Proof.
  unfold os_Open. case_decide; [done|]. destruct (os_fault E OpOpen _); [done|].
  change (os_Stat (logged w evs)) with (os_Stat w).
  by destruct (os_Stat w (resolve name)) as [[|?]|].
Qed.


Section Agreement.
Context (E : Env) (G : GoRuntime) (cfg : Config).

(** Decoding, when the decoder leaves a map. *)
Lemma Go_json_Decode_map (f : Body) :
  files_null G f = false →
  json_Decode (Go.unmarshal_History E G) f (MapFiles {| Files := ∅ |})
  = (MapFiles (json_Decode (unmarshal_History E) f {| Files := ∅ |}).1,
     (json_Decode (unmarshal_History E) f {| Files := ∅ |}).2).
Proof.
  intros Hn. unfold json_Decode. case_decide; [done|].
  unfold Go.unmarshal_History. simpl. rewrite Hn.
  by destruct (unmarshal_History E f _).
Qed.

(** [loadHistory] returns the record of the embedding without panics,
    unless the decoder leaves [Files] nil. *)
Lemma MdDownloaderP_loadHistory_map (w : World) :
  (∀ f, (os_Open E (HistoryFile cfg) w).1 = Some f → files_null G f = false) →
  MdDownloaderP.loadHistory E G cfg w
  = (MapFiles (MdDownloader.loadHistory E cfg w).1, (MdDownloader.loadHistory E cfg w).2).
Proof.
  intros Hn. unfold MdDownloaderP.loadHistory, MdDownloader.loadHistory, bind.
  destruct (os_Open E (HistoryFile cfg) w) as [[f|] w'] eqn:Ho; [|done].
  rewrite Go_json_Decode_map by (by apply Hn).
  destruct (json_Decode (unmarshal_History E) f _) as [h err]. simpl.
  by destruct err.
Qed.

Lemma MainP_loadHistory_map (w : World) :
  (∀ f, (os_Open E (HistoryFile cfg) w).1 = Some f → files_null G f = false) →
  MainP.loadHistory E G cfg w
  = (MapFiles (Main.loadHistory E cfg w).1, (Main.loadHistory E cfg w).2).
Proof.
  intros Hn. unfold MainP.loadHistory, Main.loadHistory, bind.
  destruct (os_Open E (HistoryFile cfg) w) as [[f|] w'] eqn:Ho; [|done].
  rewrite Go_json_Decode_map by (by apply Hn).
  destruct (json_Decode (unmarshal_History E) f _) as [h err]. simpl.
  by destruct err.
Qed.

(** The loop body of [src/md-downloader.go] on a record that holds a map
    never panics. *)
Lemma MdDownloaderP_processItem_map (repo : string) (item : TreeItem) (h : History)
    (w : World) :
  MdDownloaderP.processItem E cfg repo item (MapFiles h) w
  = (Returned (MapFiles (MdDownloader.processItem E cfg repo item h w).1),
     (MdDownloader.processItem E cfg repo item h w).2).
Proof.
  unfold MdDownloaderP.processItem, MdDownloader.processItem. simpl.
  destruct (is_md_blob item); [|done].
  destruct (MdDownloader.shouldDownload _ _ _); [|done].
  destruct (isIgnored cfg repo (Path item)); [done|].
  rewrite !bindP_lift. unfold bind. simpl.
  by destruct (MdDownloader.downloadFile _ _ _ _ _ _).
Qed.

Lemma MdDownloaderP_loop_map (repo : string) (contents : list TreeItem) (h : History)
    (w : World) :
  for_rangeP contents (MdDownloaderP.processItem E cfg repo) (MapFiles h) w
  = (Returned (MapFiles (for_range contents (MdDownloader.processItem E cfg repo) h w).1),
     (for_range contents (MdDownloader.processItem E cfg repo) h w).2).
Proof.
  apply (for_rangeP_returns MapFiles). intros item t w' _.
  apply MdDownloaderP_processItem_map.
Qed.

(** The loop body of [part_000] on a record that holds a map panics only
    at an entry whose URL does not parse. *)
Lemma MainP_processItem_map (repo : string) (item : TreeItem) (h : History) (w : World) :
  url_parses G (Url item) = true →
  MainP.processItem E G cfg repo item (MapFiles h) w
  = (Returned (MapFiles (Main.processItem E cfg repo item h w).1),
     (Main.processItem E cfg repo item h w).2).
Proof.
  intros Hu. unfold MainP.processItem, Main.processItem. simpl.
  destruct (is_md_blob item); [|done].
  destruct (Main.shouldDownload _ _ _); [|done].
  destruct (isIgnored cfg repo (Path item)); [done|].
  unfold http_request. cbn [req_url]. rewrite Hu.
  unfold bindP, lift, bind, ret, http_send, print, emit. simpl.
  destruct (http_Do E _) as [body|]; [|done].
  destruct (json_Decode _ body _) as [content [|]]; [done|].
  destruct (base64_DecodeString E content) as [decoded|]; [|done].
  by destruct (Main.saveFile _ _ _ _ _ _).
Qed.

Lemma MainP_loop_map (repo : string) (contents : list TreeItem) (h : History) (w : World) :
  (∀ i, i ∈ contents → url_parses G (Url i) = true) →
  for_rangeP contents (MainP.processItem E G cfg repo) (MapFiles h) w
  = (Returned (MapFiles (for_range contents (Main.processItem E cfg repo) h w).1),
     (for_range contents (Main.processItem E cfg repo) h w).2).
Proof.
  intros Hu. apply (for_rangeP_returns MapFiles). intros item t w' Hin.
  apply MainP_processItem_map. by apply Hu.
Qed.

(** On a record whose [Files] is nil, the loop body of either revision
    panics at an entry it selects, and does nothing to the record at any
    other entry. *)
Lemma MdDownloaderP_processItem_nil (repo : string) (item : TreeItem) (w : World) :
  (selectable cfg repo item
   ∧ (MdDownloaderP.processItem E cfg repo item NilFiles w).1 = Panicked)
  ∨ (¬ selectable cfg repo item
     ∧ (MdDownloaderP.processItem E cfg repo item NilFiles w).1 = Returned NilFiles).
Proof.
  unfold selectable, MdDownloaderP.processItem. simpl.
  destruct (is_md_blob item); [|right; split; [by intros []|done]].
  rewrite MdDownloader_shouldDownload_spec, bool_decide_true by done.
  destruct (isIgnored cfg repo (Path item)); [right; split; [by intros []|done]|].
  left. split; [done|]. by rewrite !bindP_lift.
Qed.

Lemma MainP_processItem_nil (repo : string) (item : TreeItem) (w : World) :
  (selectable cfg repo item
   ∧ (MainP.processItem E G cfg repo item NilFiles w).1 = Panicked)
  ∨ (¬ selectable cfg repo item
     ∧ (MainP.processItem E G cfg repo item NilFiles w).1 = Returned NilFiles).
Proof.
  unfold selectable, MainP.processItem. simpl.
  destruct (is_md_blob item); [|right; split; [by intros []|done]].
  rewrite Main_shouldDownload_spec. cbn [as_read Files]. rewrite lookup_empty.
  destruct (isIgnored cfg repo (Path item)); [right; split; [by intros []|done]|].
  left. split; [done|]. unfold http_request. cbn [req_url].
  destruct (url_parses G (Url item)); [|done].
  unfold bindP, lift, bind, ret, http_send, print, emit. simpl.
  destruct (http_Do E _) as [body|]; [|done].
  destruct (json_Decode _ body _) as [content [|]]; [done|].
  destruct (base64_DecodeString E content) as [decoded|]; [|done].
  by destruct (Main.saveFile _ _ _ _ _ _).
Qed.

End Agreement.

(** A loop over a record whose [Files] is nil panics as soon as its body
    does, and returns the record as it was when the body never does. *)
Lemma for_rangeP_nil {A : Type} (sel : A → Prop) (xs : list A)
    (body : A → GoHistory → MP GoHistory) :
  (∀ x w, (sel x ∧ (body x NilFiles w).1 = Panicked)
          ∨ (¬ sel x ∧ (body x NilFiles w).1 = Returned NilFiles)) →
  ∀ w, ((∃ x, x ∈ xs ∧ sel x) ∧ (for_rangeP xs body NilFiles w).1 = Panicked)
       ∨ ((∀ x, x ∈ xs → ¬ sel x) ∧ (for_rangeP xs body NilFiles w).1 = Returned NilFiles).
Proof.
  intros Hbody. induction xs as [|x xs IH]; intros w.
  - right. split; [by intros x ?%elem_of_nil|done].
  - simpl. unfold bindP, bind.
    destruct (Hbody x w) as [[Hs Hp]|[Hs Hr]].
    + left. split; [exists x; split; [by left|done]|].
      destruct (body x NilFiles w) as [r w1]. simpl in Hp. by subst r.
    + destruct (body x NilFiles w) as [r w1]. simpl in Hr. subst r.
      destruct (IH w1) as [[(y & Hy & Hsy) Hp]|[Hall Hr]].
      * left. split; [|done]. exists y. split; [by right|done].
      * right. split; [|done]. intros y [->|Hy]%elem_of_cons; auto.
Qed.

(** ** What a run that may panic adds to the trace *)

Lemma emits_bindP {A B : Type} (P : Event → Prop) (m : MP A) (k : A → MP B) :
  emits P m → (∀ a, emits P (k a)) → emits P (bindP m k).
Proof.
  intros Hm Hk. unfold bindP. apply emits_bind; [done|].
  intros [a|]; [apply Hk|apply emits_ret].
Qed.

Lemma emits_lift {A : Type} (P : Event → Prop) (m : M A) : emits P m → emits P (lift m).
Proof. intros Hm. unfold lift. apply emits_bind; [done|]. intros a. apply emits_ret. Qed.

Lemma emits_for_rangeP {A B : Type} (P : Event → Prop)
    (xs : list B) (body : B → A → MP A) (s : A) :
  (∀ x s', emits P (body x s')) → emits P (for_rangeP xs body s).
Proof.
  intros Hbody. revert s. induction xs as [|x xs IH]; intros s; simpl.
  - apply emits_ret.
  - apply emits_bindP; [apply Hbody|]. intros s'. apply IH.
Qed.

Lemma emits_assign (P : Event → Prop) (history : GoHistory) (path value : string) :
  emits P (assign history path value).
Proof. destruct history; apply emits_ret. Qed.

Ltac emitsP_step :=
  match goal with
  | |- emits _ (bindP _ _) => apply emits_bindP; [|intros ?]
  | |- emits _ (lift _) => apply emits_lift
  | |- emits _ (assign _ _ _) => apply emits_assign
  | |- emits _ panic => apply emits_ret
  | |- emits _ (let '(_, _) := ?x in _) => destruct x
  | _ => emits_step
  end.

Lemma bind_run {A B : Type} (m : M A) (k : A → M B) (w : World) :
  bind m k w = k (m w).1 (m w).2.
Proof. unfold bind. by destruct (m w). Qed.

Lemma bindP_run {A B : Type} (m : MP A) (k : A → MP B) (w : World) :
  bindP m k w = match (m w).1 with
                | Returned a => k a (m w).2
                | Panicked => (Panicked, (m w).2)
                end.
Proof. unfold bindP, bind. by destruct (m w) as [[a|] w']. Qed.

Lemma lift_print (m : Message) (w : World) :
  lift (print m) w = (Returned tt, logged w [Printed m]).
Proof. reflexivity. Qed.

Lemma events_since_trans (w w1 w2 : World) (a b : list Event) :
  trace w1 = trace w ++ a → trace w2 = trace w1 ++ b → events_since w w2 = a ++ b.
Proof. intros H1 H2. apply events_since_app. by rewrite H2, H1, app_assoc. Qed.


Section PanicRuns.
Context (E : Env) (G : GoRuntime) (cfg : Config).

Lemma Go_saveHistory_emits (history : GoHistory) :
  emits is_report (Go.saveHistory E G cfg history).
Proof. unfold Go.saveHistory. repeat emits_step. Qed.

Lemma MdDownloaderP_loadHistory_emits : emits is_report (MdDownloaderP.loadHistory E G cfg).
Proof. unfold MdDownloaderP.loadHistory. repeat emitsP_step. Qed.

Lemma MdDownloaderP_processItem_emits (repo : string) (item : TreeItem) (history : GoHistory) :
  emits (λ _, True) (MdDownloaderP.processItem E cfg repo item history).
Proof.
  unfold MdDownloaderP.processItem. repeat emitsP_step.
  eapply emits_weaken; [|apply downloadFile_emits]. done.
Qed.


(** A run of [listMdFiles] ([src/md-downloader.go]) for a repository whose
    tree URL does not parse panics before anything is sent. *)
Lemma MdDownloaderP_listMdFiles_unparsed (repo : string) (w : World) :
  url_parses G (tree_url repo) = false →
  MdDownloaderP.listMdFiles E G cfg repo w = (Panicked, w).
Proof.
  intros Hu. unfold MdDownloaderP.listMdFiles. fold (repo_name repo).
  rewrite bindP_run, http_request_nil; done.
Qed.

(** What follows the tree request in [listMdFiles]
    ([src/md-downloader.go]). *)
Lemma MdDownloaderP_listMdFiles_parsed (repo : string) (w : World) :
  url_parses G (tree_url repo) = true →
  ∃ rest, trace (MdDownloaderP.listMdFiles E G cfg repo w).2
          = trace w ++ Sent (tree_request cfg (repo_name repo)) :: rest.
Proof.
  intros Hu. unfold MdDownloaderP.listMdFiles. fold (repo_name repo).
  rewrite bindP_run, http_request_built by done. cbn [fst snd].
  match goal with |- context [?k (logged w ?evs)] =>
    assert (Hk : emits (λ _, True) k); [|destruct (Hk (logged w evs)) as (rest & Ht & _)]
  end.
  { destruct (http_Do E _) as [body|]; [|repeat emitsP_step].
    destruct (json_Decode _ body []) as [contents [|]]; [repeat emitsP_step|].
    apply emits_bindP.
    { apply emits_lift. eapply emits_weaken; [|apply MdDownloaderP_loadHistory_emits]. done. }
    intros h0. apply emits_bindP.
    - apply emits_for_rangeP. intros item h. apply MdDownloaderP_processItem_emits.
    - intros h1. apply emits_lift.
      eapply emits_weaken; [|apply Go_saveHistory_emits]. done. }
  exists rest. rewrite Ht. simpl. by rewrite <- app_assoc.
Qed.

(** Where no panic arises, [listMdFiles] of [src/md-downloader.go] is the
    function without panics: the tree URL parses and, when a tree is
    obtained, the decoder does not leave [Files] nil. *)
Lemma MdDownloaderP_listMdFiles_agrees (repo : string) (w : World) :
  url_parses G (tree_url repo) = true →
  (tree_listing E cfg repo ≠ None →
   ∀ f, (os_Open E (HistoryFile cfg) w).1 = Some f → files_null G f = false) →
  MdDownloaderP.listMdFiles E G cfg repo w
  = (Returned tt, (MdDownloader.listMdFiles E cfg repo w).2).
Proof.
  intros Hu Hn. unfold tree_listing in Hn.
  unfold MdDownloaderP.listMdFiles, MdDownloader.listMdFiles. fold (repo_name repo).
  rewrite bindP_run, http_request_built by done.
  rewrite bind_run, http_send_logged. cbn [fst snd].
  destruct (http_Do E _) as [body|]; [|done].
  destruct (json_Decode _ body []) as [contents [|]]; [done|].
  rewrite bindP_lift, MdDownloaderP_loadHistory_map; cycle 1.
  { intros f. rewrite os_Open_logged. by apply Hn. }
  cbn [fst snd]. rewrite bindP_run, MdDownloaderP_loop_map. cbn [fst snd].
  rewrite lift_run, Go_saveHistory_map, !bind_run.
  by destruct (saveHistory E cfg _ _) as [[] ?].
Qed.

(** [listMdFiles] of [part_000]: a panic before anything is sent when the
    tree URL does not parse, and otherwise the request and one message. *)
Lemma MainP_listMdFiles_cases (repo : string) (w : World) :
  (url_parses G (tree_url repo) = false
   ∧ MainP.listMdFiles E G cfg repo w = (Panicked, w))
  ∨ (url_parses G (tree_url repo) = true
     ∧ ∃ m, m ∈ [RequestFailed; ReadBodyFailed; DecodeJSONFailed]
         ∧ MainP.listMdFiles E G cfg repo w
           = (Returned tt, logged w [Sent (tree_request cfg (repo_name repo)); Printed m])).
Proof.
  unfold MainP.listMdFiles. fold (repo_name repo). rewrite bindP_run.
  destruct (url_parses G (tree_url repo)) eqn:Hu.
  - right. split; [done|]. rewrite http_request_built by done. cbn [fst snd].
    destruct (http_Do E _) as [body|].
    + destruct (io_ReadAll body) as [bytes|].
      * rewrite json_Decode_drained. exists DecodeJSONFailed.
        split; [in_list|by rewrite lift_print, logged_logged].
      * exists ReadBodyFailed. split; [in_list|by rewrite lift_print, logged_logged].
    + exists RequestFailed. split; [in_list|by rewrite lift_print, logged_logged].
  - left. split; [done|]. by rewrite http_request_nil.
Qed.

(** Where its tree URL parses, [listMdFiles] of [part_000] is the function
    without panics. *)
Lemma MainP_listMdFiles_agrees (repo : string) (w : World) :
  url_parses G (tree_url repo) = true →
  MainP.listMdFiles E G cfg repo w = (Returned tt, (Main.listMdFiles E cfg repo w).2).
Proof.
  intros Hu. unfold MainP.listMdFiles, Main.listMdFiles. fold (repo_name repo).
  rewrite bindP_run, http_request_built by done.
  rewrite bind_run, http_send_logged. cbn [fst snd].
  destruct (http_Do E _) as [body|]; [|done].
  destruct (io_ReadAll body) as [bytes|]; [|done].
  by rewrite !json_Decode_drained.
Qed.

End PanicRuns.

(** ** Two runs in succession *)





(** ** The history file across a run *)




(** ** The loop and the record *)

(** After the loop over a tree that gives each path one identifier, every
    selectable entry of the tree is in the record, provided the record
    holds a map: in [src/md-downloader.go] it is recorded with its current
    identifier, whether or not its download succeeded; in [part_000], when
    the URL of every entry parses, it is recorded with its current
    identifier or with ["ERROR"].  On a record whose [Files] is nil, the
    loop of either revision panics instead (at the first entry it selects)
    and records nothing. *)
Theorem loop_records_every_selected_file
    (E : Env) (G : GoRuntime) (cfg : Config) (repo : string) (contents : list TreeItem)
    (h : History) (w : World) (item : TreeItem) :
  one_sha_per_path contents →
  item ∈ contents →
  selectable cfg repo item →
  (∃ h', (for_rangeP contents (MdDownloaderP.processItem E cfg repo) (MapFiles h) w).1
           = Returned (MapFiles h')
         ∧ Files h' !! Path item = Some (Sha item))
  ∧ (for_rangeP contents (MdDownloaderP.processItem E cfg repo) NilFiles w).1 = Panicked
  ∧ ((∀ i, i ∈ contents → url_parses G (Url i) = true) →
     ∃ h', (for_rangeP contents (MainP.processItem E G cfg repo) (MapFiles h) w).1
             = Returned (MapFiles h')
           ∧ (Files h' !! Path item = Some (Sha item)
              ∨ Files h' !! Path item = Some "ERROR"))
  ∧ (for_rangeP contents (MainP.processItem E G cfg repo) NilFiles w).1 = Panicked.
Proof.
  intros Hone Hin Hsel.
  destruct (loop_records_selected E cfg repo contents h w item Hone Hin Hsel) as [Hgo Hmain].
  split; [|split; [|split]].
  - eexists. rewrite MdDownloaderP_loop_map. by split.
  - destruct (for_rangeP_nil (selectable cfg repo) contents
                (MdDownloaderP.processItem E cfg repo)
                (MdDownloaderP_processItem_nil E cfg repo) w) as [[_ Hp]|[Hall _]]; [done|].
    by destruct (Hall item Hin).
  - intros Hu. eexists. rewrite MainP_loop_map by done. by split.
  - destruct (for_rangeP_nil (selectable cfg repo) contents
                (MainP.processItem E G cfg repo)
                (MainP_processItem_nil E G cfg repo) w) as [[_ Hp]|[Hall _]]; [done|].
    by destruct (Hall item Hin).
Qed.

Lemma loop_records_every_selected_file_witness :
  (∃ h', (for_rangeP demo_tree (MdDownloaderP.processItem online cfg_demo "owner/project")
            (MapFiles empty_History) fresh).1 = Returned (MapFiles h')
         ∧ Files h' !! "guide.md" = Some "9c1d")
  ∧ (for_rangeP demo_tree (MdDownloaderP.processItem online cfg_demo "owner/project")
       NilFiles fresh).1 = Panicked.
Proof.
  destruct (loop_records_every_selected_file online gostd cfg_demo "owner/project" demo_tree
              empty_History fresh guide_item) as (Hmap & Hnil & _).
  - apply demo_tree_one_sha_per_path.
  - in_list.
  - split; reflexivity.
  - split; [exact Hmap|exact Hnil].
Defined.

(** The run of [src/md-downloader.go] on a history file that gives [null]
    for its files: [README.md] is announced and downloaded, the assignment
    to the record panics, and the history file is left as it was. *)
Example null_history_run_panics :
  let run := MdDownloaderP.listMdFiles online_null gostd cfg_demo "owner/project" nulled in
  run.1 = Panicked
  ∧ verdicts (events_since nulled run.2) = [("README.md", FETCH)]
  ∧ nodes run.2 !! resolve "docs/project/README.md" = Some (File "# Project")
  ∧ nodes run.2 !! resolve "history.json" = Some (File null_history).
Proof. by vm_compute. Qed.

(** ** The whole command, with its panics *)

Lemma reached_all (G : GoRuntime) (repos : list string) :
  reached G repos = repos ↔ ∀ repo, repo ∈ repos → url_parses G (tree_url repo) = true.
Proof.
  induction repos as [|repo repos IH]; simpl.
  - split; [by intros _ r ?%elem_of_nil|done].
  - destruct (url_parses G (tree_url repo)) eqn:Hu.
    + split.
      * intros [= Hr] r [->|Hin]%elem_of_cons; [done|]. by apply IH.
      * intros Hall. f_equal. apply IH. intros r Hin. apply Hall. by right.
    + split; [done|]. intros Hall. specialize (Hall repo (list_elem_of_here _ _)). congruence.
Qed.

(** The loop of [part_000]'s command over the repositories. *)
Lemma MainP_repositories_loop (E : Env) (G : GoRuntime) (cfg : Config)
    (repos : list string) (w : World) :
  ∃ evs,
    (for_rangeP repos (λ repo _, MainP.listMdFiles E G cfg repo) tt w).2 = logged w evs
    ∧ requests evs = (λ repo, tree_request cfg (repo_name repo)) <$> reached G repos
    ∧ verdicts evs = []
    ∧ ((for_rangeP repos (λ repo _, MainP.listMdFiles E G cfg repo) tt w).1 = Returned tt
       ↔ reached G repos = repos).
Proof.
  revert w. induction repos as [|repo repos IH]; intros w.
  - exists []. by rewrite logged_nil.
  - simpl. rewrite bindP_run.
    destruct (MainP_listMdFiles_cases E G cfg repo w) as [[Hu ->]|[Hu (m & Hm & ->)]];
      rewrite Hu; cbn [fst snd].
    + exists []. rewrite logged_nil. done.
    + destruct (IH (logged w [Sent (tree_request cfg (repo_name repo)); Printed m]))
        as (evs & -> & Hr & Hv & Hiff).
      eexists. rewrite logged_logged. split; [done|].
      split; [|split].
      * simpl. by rewrite Hr.
      * in_cases Hm; simpl; by rewrite Hv.
      * rewrite Hiff. split; [by intros ->|by intros [= ->]].
Qed.

(** The whole command of [part_000] never synchronises anything.  It
    sends the tree request of each configured repository, in order, up to
    the first repository whose tree URL does not parse, where the process
    panics; it sends nothing else, announces no verdict, and leaves the
    file system, history file included, as it was.  It ends without a
    panic exactly when every tree URL parses. *)
Theorem Main_Run_never_syncs (E : Env) (G : GoRuntime) (ignore : list string)
    (cfg : Config) (w : World) :
  let run := MainP.Run E G ignore cfg w in
  nodes run.2 = nodes w
  ∧ requests (events_since w run.2)
    = (λ repo, tree_request cfg (repo_name repo)) <$> reached G (Repos cfg)
  ∧ verdicts (events_since w run.2) = []
  ∧ (run.1 = Returned tt ↔ ∀ repo, repo ∈ Repos cfg → url_parses G (tree_url repo) = true).
Proof.
  intros run. subst run. unfold MainP.Run. rewrite bindP_lift. unfold parseIgnorePaths.
  destruct (parse_entries_reports ignore (set_Ignore cfg ∅) w) as (e1 & Hw1 & Hr1 & Ha & Hp).
  destruct (for_range ignore parseIgnorePath (set_Ignore cfg ∅) w) as [cfg' w1].
  simpl in *. subst w1.
  destruct (MainP_repositories_loop E G cfg' (Repos cfg') (logged w e1))
    as (e2 & Hw2 & Hr2 & Hv2 & Hiff).
  rewrite Hw2, Hiff, Hp, reached_all.
  rewrite logged_logged, events_since_logged, requests_app, verdicts_app.
  destruct (reports_are_quiet e1 Hr1) as [-> ->]. rewrite Hr2, Hv2, Hp.
  split; [done|]. split; [|done]. simpl.
  apply list_fmap_ext. intros _ repo _. by apply tree_request_token.
Qed.

(** The loop of the command of [src/md-downloader.go] over the
    repositories, when it ends without a panic. *)
Lemma MdDownloaderP_repositories_returned (E : Env) (G : GoRuntime) (cfg : Config)
    (repos : list string) (w : World) :
  (for_rangeP repos (λ repo _, MdDownloaderP.listMdFiles E G cfg repo) tt w).1
    = Returned tt →
  ∃ evs,
    trace (for_rangeP repos (λ repo _, MdDownloaderP.listMdFiles E G cfg repo) tt w).2
      = trace w ++ evs
    ∧ (λ repo, tree_request cfg (repo_name repo)) <$> repos `sublist_of` requests evs.
Proof.
  revert w. induction repos as [|repo repos IH]; intros w.
  - intros _. exists []. rewrite app_nil_r. split; [done|constructor].
  - simpl. rewrite bindP_run.
    destruct (url_parses G (tree_url repo)) eqn:Hu.
    + destruct (MdDownloaderP_listMdFiles_parsed E G cfg repo w Hu) as (rest & Ht).
      destruct (MdDownloaderP.listMdFiles E G cfg repo w) as [[[]|] w1]; [|done].
      cbn [fst snd] in *. intros Hret.
      destruct (IH w1 Hret) as (evs & Ht' & Hsub).
      exists ((Sent (tree_request cfg (repo_name repo)) :: rest) ++ evs).
      split; [by rewrite Ht', Ht, <- app_assoc|].
      rewrite requests_app.
      change (requests (Sent ?r :: rest)) with (r :: requests rest).
      simpl. apply sublist_skip. by apply sublist_inserts_l.
    + by rewrite MdDownloaderP_listMdFiles_unparsed.
Qed.

(** The same loop when every tree URL parses and no listing succeeds: it is
    the loop without panics. *)
Lemma MdDownloaderP_repositories_no_tree (E : Env) (G : GoRuntime) (cfg : Config)
    (repos : list string) (w : World) :
  (∀ repo, repo ∈ repos →
     url_parses G (tree_url repo) = true ∧ tree_listing E cfg repo = None) →
  for_rangeP repos (λ repo _, MdDownloaderP.listMdFiles E G cfg repo) tt w
  = (Returned tt, (for_range repos (λ repo _, MdDownloader.listMdFiles E cfg repo) tt w).2).
Proof.
  intros Hall.
  rewrite (for_rangeP_returns (λ u : unit, u) repos
             (λ repo _, MdDownloaderP.listMdFiles E G cfg repo)
             (λ repo _, MdDownloader.listMdFiles E cfg repo)).
  - by destruct (for_range repos _ tt w) as [[] ?].
  - intros repo [] w' Hin. destruct (Hall repo Hin) as [Hu Hnone].
    rewrite MdDownloaderP_listMdFiles_agrees; [|done|by rewrite Hnone].
    by destruct (MdDownloader.listMdFiles E cfg repo w') as [[] ?].
Qed.

(** The same loop at a repository whose tree URL does not parse, after
    repositories whose listings failed: it panics there. *)
Lemma MdDownloaderP_repositories_stop (E : Env) (G : GoRuntime) (cfg : Config)
    (before : list string) (repo : string) (after : list string) (w : World) :
  (∀ r, r ∈ before → url_parses G (tree_url r) = true ∧ tree_listing E cfg r = None) →
  url_parses G (tree_url repo) = false →
  ∃ evs,
    for_rangeP (before ++ repo :: after)
      (λ repo _, MdDownloaderP.listMdFiles E G cfg repo) tt w = (Panicked, logged w evs)
    ∧ requests evs = (λ repo, tree_request cfg (repo_name repo)) <$> before.
Proof.
  intros Hall Hu. revert w. induction before as [|r before IH]; intros w.
  - exists []. simpl. rewrite bindP_run, MdDownloaderP_listMdFiles_unparsed by done.
    by rewrite logged_nil.
  - destruct (Hall r (list_elem_of_here _ _)) as [Hur Hnone].
    destruct (MdDownloader_listMdFiles_no_tree E cfg r w Hnone) as (m & Hm & Hrun).
    simpl. rewrite bindP_run, MdDownloaderP_listMdFiles_agrees, Hrun;
      [|done|by rewrite Hnone].
    cbn [fst snd].
    destruct (IH (λ r' Hin, Hall r' (list_elem_of_further _ _ _ Hin))
                (logged w [Sent (tree_request cfg (repo_name r)); Printed m]))
      as (evs & -> & Hr).
    eexists. rewrite logged_logged. split; [done|]. simpl. by rewrite Hr.
Qed.

(** The command of [src/md-downloader.go] and its repositories.  When the
    run ends without a panic, every configured repository was listed, in
    the order of the flags: their tree requests are among the requests of
    the run, in that order.  When every tree URL parses and no listing
    succeeds, the run ends without a panic, these are its only requests and
    the file system is left as it was.  A repository whose tree URL does
    not parse stops the whole run: when it comes after repositories whose
    listings failed, the process panics at it, having sent the tree
    requests of those before it and nothing else; the repositories after it
    are never listed. *)
Theorem MdDownloader_Run_lists_every_repository
    (E : Env) (G : GoRuntime) (ignore : list string) (cfg : Config) (w : World) :
  let run := MdDownloaderP.Run E G ignore cfg w in
  (run.1 = Returned tt →
   (λ repo, tree_request cfg (repo_name repo)) <$> Repos cfg
     `sublist_of` requests (events_since w run.2))
  ∧ ((∀ repo, repo ∈ Repos cfg →
        url_parses G (tree_url repo) = true ∧ tree_listing E cfg repo = None) →
     run.1 = Returned tt
     ∧ nodes run.2 = nodes w
     ∧ requests (events_since w run.2)
       = (λ repo, tree_request cfg (repo_name repo)) <$> Repos cfg)
  ∧ (∀ before repo after, Repos cfg = before ++ repo :: after →
       (∀ r, r ∈ before → url_parses G (tree_url r) = true ∧ tree_listing E cfg r = None) →
       url_parses G (tree_url repo) = false →
       run.1 = Panicked
       ∧ nodes run.2 = nodes w
       ∧ requests (events_since w run.2)
         = (λ repo, tree_request cfg (repo_name repo)) <$> before).
Proof.
  intros run. subst run. unfold MdDownloaderP.Run. rewrite bindP_lift.
  unfold parseIgnorePaths.
  destruct (parse_entries_reports ignore (set_Ignore cfg ∅) w) as (e1 & Hw1 & Hr1 & Ha & Hp).
  destruct (for_range ignore parseIgnorePath (set_Ignore cfg ∅) w) as [cfg' w1].
  simpl in *. subst w1.
  assert (Hreq : ∀ repos : list string,
                   (λ repo, tree_request cfg' (repo_name repo)) <$> repos
                          = (λ repo, tree_request cfg (repo_name repo)) <$> repos).
  { intros repos. apply list_fmap_ext. intros _ repo _. by apply tree_request_token. }
  assert (Hlist : ∀ repo, tree_listing E cfg' repo = tree_listing E cfg repo).
  { intros repo. by apply tree_listing_token. }
  rewrite Hp. split; [|split].
  - intros Hret.
    destruct (MdDownloaderP_repositories_returned E G cfg' (Repos cfg) (logged w e1) Hret)
      as (e2 & Ht & Hsub).
    rewrite (events_since_app w _ (e1 ++ e2)) by (rewrite Ht; simpl; by rewrite app_assoc).
    rewrite requests_app, (proj1 (reports_are_quiet e1 Hr1)). simpl. by rewrite <- Hreq.
  - intros Hall.
    rewrite MdDownloaderP_repositories_no_tree
      by (intros repo Hin; rewrite Hlist; by apply Hall).
    cbn [fst snd]. split; [done|].
    destruct (MdDownloader_repositories_loop E cfg' (Repos cfg) (logged w e1))
      as (e2 & Ht & _ & Hnone).
    destruct Hnone as [Hn Hr]; [intros repo Hin; rewrite Hlist; by apply Hall|].
    rewrite Hn. split; [done|].
    rewrite (events_since_app w _ (e1 ++ e2)) by (rewrite Ht; simpl; by rewrite app_assoc).
    by rewrite requests_app, (proj1 (reports_are_quiet e1 Hr1)), Hr, Hreq.
  - intros before repo after -> Hall Hu.
    destruct (MdDownloaderP_repositories_stop E G cfg' before repo after (logged w e1))
      as (e2 & -> & Hr); [intros r Hin; rewrite Hlist; by apply Hall|done|].
    cbn [fst snd]. rewrite logged_logged, events_since_logged, requests_app.
    by rewrite (proj1 (reports_are_quiet e1 Hr1)), Hr, Hreq.
Qed.

Lemma MdDownloader_Run_lists_every_repository_witness :
  (MdDownloaderP.Run online gostd [] cfg_unparsable seeded).1 = Panicked
  ∧ nodes (MdDownloaderP.Run online gostd [] cfg_unparsable seeded).2 = nodes seeded
  ∧ requests (events_since seeded (MdDownloaderP.Run online gostd [] cfg_unparsable seeded).2)
    = [].
Proof.
  apply (proj2 (proj2 (MdDownloader_Run_lists_every_repository online gostd []
                         cfg_unparsable seeded))
           [] "own%zzer/project" ["owner/project"]).
  - reflexivity.
  - intros r Hin. by apply elem_of_nil in Hin.
  - reflexivity.
Defined.
